(** * kube-client-template: the bootstrap of a Kubernetes client command

    The repository holds three revisions of [cmd/root.go], one Go file each:

    - [RootGo]   (src/cmd/root.go): plain output, an [--interactive] flag;
    - [Part000]  (src/unnamed/part_000): zap logging, the Kubernetes flags
                 kept in a hidden flag set under the prefix [kubernetes-];
    - [Part001]  (src/unnamed/part_001): zap logging, plain output in
                 [initConfig] and [Execute].

    Each revision is embedded in a module of its name, function by function
    ([init], [initConfig], [PersistentPreRun], [Execute]).  The code is glue
    over cobra, pflag, viper, zap and client-go; what those libraries answer
    is not decided by this repository, so it is taken from an environment
    [Env] of oracles, and every theorem is stated for an arbitrary
    environment.  Go's effects are written out: the package-level variables
    are a record [Globals] threaded through a small monad [Go], which also
    collects the trace of what the process prints, logs and asks of the
    outside world, and ends in a return, an [os.Exit] or a panic. *)

From stdpp Require Import gmap strings list.

Open Scope Z_scope.

(** ** Library types *)

(** Go's [error] values, by their text. *)
Definition Error : Type := string.

Module zapcore.

(** zap's severities, in increasing order. *)
Inductive Level : Type :=
| DebugLevel | InfoLevel | WarnLevel | ErrorLevel
| DPanicLevel | PanicLevel | FatalLevel.

Definition rank (l : Level) : Z :=
  match l with
  | DebugLevel => -1 | InfoLevel => 0 | WarnLevel => 1 | ErrorLevel => 2
  | DPanicLevel => 3 | PanicLevel => 4 | FatalLevel => 5
  end.

(** [Enabled min lvl]: a logger whose minimum is [min] writes entries of
    severity [lvl]. *)
Definition Enabled (min lvl : Level) : bool := rank min <=? rank lvl.

End zapcore.

Module zap.

(** A built logger; the bootstrap only ever sets its level. *)
Record Logger : Type := { Level : zapcore.Level }.

End zap.

Module rest.

(** The connection descriptor the Credential Loader resolves. *)
Record Config : Type := { Host : string; AuthMaterial : string }.

End rest.

Module kubernetes.

(** A client bound to a connection descriptor. *)
Record Clientset : Type := { config : rest.Config }.

End kubernetes.

(** The names of the Pods of a list answer. *)
Definition PodList : Type := list string.

(** The only reader the code hands to the loader. *)
Inductive Reader : Type := os_Stdin.

Module clientcmd.

(** [ClientConfigLoadingRules]: the explicit path, and the chain that is
    consulted when there is none. *)
Record ClientConfigLoadingRules : Type :=
  { ExplicitPath : string; Precedence : list string }.

Definition set_ExplicitPath (p : string) (r : ClientConfigLoadingRules)
  : ClientConfigLoadingRules :=
  {| ExplicitPath := p; Precedence := Precedence r |}.

(** [ConfigOverrides], as the map from the un-prefixed name of an override
    flag to the value bound to it; an absent key is a field left at its
    zero value. *)
Abbreviation ConfigOverrides := (gmap string string).

(** The value behind the [ClientConfig] interface: what the deferred
    loader was built from.  [fallbackReader] is [Some] for the interactive
    loader. *)
Record DeferredLoadingClientConfig : Type :=
  { loader : ClientConfigLoadingRules;
    overrides : ConfigOverrides;
    fallbackReader : option Reader }.

Definition NewInteractiveDeferredLoadingClientConfig
    (l : ClientConfigLoadingRules) (o : ConfigOverrides) (r : Reader)
  : DeferredLoadingClientConfig :=
  {| loader := l; overrides := o; fallbackReader := Some r |}.

Definition NewNonInteractiveDeferredLoadingClientConfig
    (l : ClientConfigLoadingRules) (o : ConfigOverrides)
  : DeferredLoadingClientConfig :=
  {| loader := l; overrides := o; fallbackReader := None |}.

(** [RecommendedConfigPathFlag]. *)
Definition RecommendedConfigPathFlag : string := "kubeconfig".

End clientcmd.

Module viper.

(** The settings of viper's process-wide instance that the code touches. *)
Record Viper : Type :=
  { configFile : string;
    configPaths : list string;
    configName : string;
    automaticEnvApplied : bool }.

Definition New : Viper :=
  {| configFile := ""; configPaths := []; configName := "config";
     automaticEnvApplied := false |}.

Definition SetConfigFile (p : string) (v : Viper) : Viper :=
  {| configFile := p; configPaths := configPaths v;
     configName := configName v;
     automaticEnvApplied := automaticEnvApplied v |}.

Definition AddConfigPath (p : string) (v : Viper) : Viper :=
  {| configFile := configFile v; configPaths := configPaths v ++ [p];
     configName := configName v;
     automaticEnvApplied := automaticEnvApplied v |}.

Definition SetConfigName (n : string) (v : Viper) : Viper :=
  {| configFile := configFile v; configPaths := configPaths v;
     configName := n;
     automaticEnvApplied := automaticEnvApplied v |}.

Definition AutomaticEnv (v : Viper) : Viper :=
  {| configFile := configFile v; configPaths := configPaths v;
     configName := configName v;
     automaticEnvApplied := true |}.

End viper.

(** ** The environment

    What the libraries and the outside world answer.  Nothing is assumed of
    these oracles unless a theorem says so in a hypothesis. *)
Record Env : Type :=
  { (** [homedir.Dir()] *)
    homedir_Dir : string + Error;
    (** [clientcmd.RecommendedHomeFile] *)
    clientcmd_RecommendedHomeFile : string;
    (** the un-prefixed flag names of [clientcmd.RecommendedConfigOverrideFlags] *)
    clientcmd_OverrideFlagNames : list string;
    (** the chain of [clientcmd.NewDefaultClientConfigLoadingRules()] *)
    clientcmd_DefaultPrecedence : list string;
    (** [viper.ReadInConfig()], answering the file it read *)
    viper_ReadInConfig : viper.Viper → string + Error;
    (** [zapcore.Level.Set], the parser behind [--log-level] *)
    zapcore_Level_Set : string → zapcore.Level + Error;
    (** [kubeConfig.ClientConfig()] *)
    clientcmd_ClientConfig :
      clientcmd.DeferredLoadingClientConfig → rest.Config + Error;
    (** [kubeConfig.Namespace()] *)
    clientcmd_Namespace :
      clientcmd.DeferredLoadingClientConfig → string * bool * option Error;
    (** [kubernetes.NewForConfig] *)
    kubernetes_NewForConfig : rest.Config → kubernetes.Clientset + Error;
    (** [Pods(namespace).List(metav1.ListOptions{})] on the API server *)
    Pods_List : kubernetes.Clientset → string → PodList * option Error }.

(** [clientcmd.NewDefaultClientConfigLoadingRules()]: no explicit path. *)
Definition NewDefaultClientConfigLoadingRules (env : Env)
  : clientcmd.ClientConfigLoadingRules :=
  {| clientcmd.ExplicitPath := "";
     clientcmd.Precedence := clientcmd_DefaultPrecedence env |}.

(** ** Package-level variables *)

(** The [var] block of the three revisions, with viper's process-wide
    instance.  [interactive] exists in [RootGo] only, [logLevel] and
    [logger] in the logging revisions only. *)
Record Globals : Type :=
  { cfgFile : string;
    interactive : bool;
    logLevel : zapcore.Level;
    kubeConfigFile : string;
    kubeClientConfigOverrides : clientcmd.ConfigOverrides;
    kubeClient : option kubernetes.Clientset;
    logger : option zap.Logger;
    viperState : viper.Viper }.

Definition set_cfgFile (x : string) (g : Globals) : Globals :=
  {| cfgFile := x; interactive := interactive g; logLevel := logLevel g;
     kubeConfigFile := kubeConfigFile g;
     kubeClientConfigOverrides := kubeClientConfigOverrides g;
     kubeClient := kubeClient g; logger := logger g;
     viperState := viperState g |}.

Definition set_interactive (x : bool) (g : Globals) : Globals :=
  {| cfgFile := cfgFile g; interactive := x; logLevel := logLevel g;
     kubeConfigFile := kubeConfigFile g;
     kubeClientConfigOverrides := kubeClientConfigOverrides g;
     kubeClient := kubeClient g; logger := logger g;
     viperState := viperState g |}.

Definition set_logLevel (x : zapcore.Level) (g : Globals) : Globals :=
  {| cfgFile := cfgFile g; interactive := interactive g; logLevel := x;
     kubeConfigFile := kubeConfigFile g;
     kubeClientConfigOverrides := kubeClientConfigOverrides g;
     kubeClient := kubeClient g; logger := logger g;
     viperState := viperState g |}.

Definition set_kubeConfigFile (x : string) (g : Globals) : Globals :=
  {| cfgFile := cfgFile g; interactive := interactive g;
     logLevel := logLevel g; kubeConfigFile := x;
     kubeClientConfigOverrides := kubeClientConfigOverrides g;
     kubeClient := kubeClient g; logger := logger g;
     viperState := viperState g |}.

Definition set_kubeClientConfigOverrides
    (x : clientcmd.ConfigOverrides) (g : Globals) : Globals :=
  {| cfgFile := cfgFile g; interactive := interactive g;
     logLevel := logLevel g; kubeConfigFile := kubeConfigFile g;
     kubeClientConfigOverrides := x;
     kubeClient := kubeClient g; logger := logger g;
     viperState := viperState g |}.

Definition set_kubeClient (x : option kubernetes.Clientset) (g : Globals)
  : Globals :=
  {| cfgFile := cfgFile g; interactive := interactive g;
     logLevel := logLevel g; kubeConfigFile := kubeConfigFile g;
     kubeClientConfigOverrides := kubeClientConfigOverrides g;
     kubeClient := x; logger := logger g;
     viperState := viperState g |}.

Definition set_logger (x : option zap.Logger) (g : Globals) : Globals :=
  {| cfgFile := cfgFile g; interactive := interactive g;
     logLevel := logLevel g; kubeConfigFile := kubeConfigFile g;
     kubeClientConfigOverrides := kubeClientConfigOverrides g;
     kubeClient := kubeClient g; logger := x;
     viperState := viperState g |}.

Definition set_viperState (x : viper.Viper) (g : Globals) : Globals :=
  {| cfgFile := cfgFile g; interactive := interactive g;
     logLevel := logLevel g; kubeConfigFile := kubeConfigFile g;
     kubeClientConfigOverrides := kubeClientConfigOverrides g;
     kubeClient := kubeClient g; logger := logger g;
     viperState := x |}.

(** The zero values of the [var] block: [logLevel] starts at
    [zapcore.InfoLevel], the overrides at [&clientcmd.ConfigOverrides{}],
    the two pointers at nil. *)
Definition zero_Globals : Globals :=
  {| cfgFile := ""; interactive := false; logLevel := zapcore.InfoLevel;
     kubeConfigFile := ""; kubeClientConfigOverrides := ∅;
     kubeClient := None; logger := None; viperState := viper.New |}.

(** ** Observable events *)

(** An operand of [fmt.Println] or the value of a zap field. *)
Inductive Value : Type :=
| VString (s : string)
| VError (e : option Error)
| VPods (p : PodList).

Inductive Event : Type :=
(** a line on standard output: [fmt.Println(operands...)] *)
| Println (operands : list Value)
(** an entry written by the zap logger *)
| LogEntry (lvl : zapcore.Level) (msg : string)
           (fields : list (string * Value))
(** the deferred [logger.Sync()] *)
| LoggerSync
(** [viper.ReadInConfig()] on the settings made so far, and its answer *)
| ReadInConfig (v : viper.Viper) (answer : string + Error)
(** [kubeConfig.ClientConfig()] and its answer *)
| LoadClientConfig (c : clientcmd.DeferredLoadingClientConfig)
                   (answer : rest.Config + Error)
(** [kubernetes.NewForConfigOrDie(restConfig)] and the answer of
    [NewForConfig] *)
| BuildClient (cfg : rest.Config) (answer : kubernetes.Clientset + Error)
(** [kubeConfig.Namespace()] and its answer *)
| ResolveNamespace (c : clientcmd.DeferredLoadingClientConfig)
                   (answer : string * bool * option Error)
(** the Pods list request sent to the API server, and its answer *)
| ListPods (client : kubernetes.Clientset) (namespace : string)
           (answer : PodList * option Error)
(** cobra calls the action of the dispatched command *)
| RunAction.

(** ** The monad of Go statements *)

(** How a function stops: it returns, the process exits through
    [os.Exit], or a panic unwinds. *)
Inductive Outcome (A : Type) : Type :=
| Return (a : A)
| Exit (code : Z)
| Panic (v : string).

Arguments Return {A} a.
Arguments Exit {A} code.
Arguments Panic {A} v.

Definition Go (A : Type) : Type :=
  Globals → Outcome A * Globals * list Event.

Definition ret {A : Type} (a : A) : Go A := λ g, (Return a, g, []).

Definition bind {A B : Type} (m : Go A) (k : A → Go B) : Go B :=
  λ g,
    match m g with
    | (Return a, g1, t1) =>
        match k a g1 with
        | (o, g2, t2) => (o, g2, t1 ++ t2)
        end
    | (Exit c, g1, t1) => (Exit c, g1, t1)
    | (Panic v, g1, t1) => (Panic v, g1, t1)
    end.

Notation "x <- m ;; k" := (bind m (λ x, k))
  (at level 100, m at next level, right associativity,
   format "'[v' x  <-  m  ;;  '/' k ']'").
Notation "m ;;; k" := (bind m (λ _, k))
  (at level 100, right associativity, format "'[v' m  ;;;  '/' k ']'").

Definition get : Go Globals := λ g, (Return g, g, []).
Definition modify (f : Globals → Globals) : Go unit :=
  λ g, (Return tt, f g, []).
Definition emit (e : Event) : Go unit := λ g, (Return tt, g, [e]).
Definition os_Exit {A : Type} (code : Z) : Go A := λ g, (Exit code, g, []).
Definition panic {A : Type} (v : string) : Go A := λ g, (Panic v, g, []).

(** [defer d] at the head of [body]: [d] runs when [body] returns or
    panics, and not when the process exits inside it. *)
Definition defer {A : Type} (d : Go unit) (body : Go A) : Go A :=
  λ g,
    match body g with
    | (Exit c, g1, t1) => (Exit c, g1, t1)
    | (o, g1, t1) =>
        match d g1 with
        | (Return _, g2, t2) => (o, g2, t1 ++ t2)
        | (Exit c, g2, t2) => (Exit c, g2, t1 ++ t2)
        | (Panic v, g2, t2) => (Panic v, g2, t1 ++ t2)
        end
    end.

(** The status the operating system sees: 0 when [main] returns, the
    argument of [os.Exit], 2 for an unrecovered panic. *)
Definition exit_status {A : Type} (o : Outcome A) : Z :=
  match o with
  | Return _ => 0
  | Exit c => c
  | Panic _ => 2
  end.

Definition nil_dereference : string :=
  "invalid memory address or nil pointer dereference".

Definition nonempty (s : string) : bool := negb (String.eqb s "").

(** ** Logging through the package-level [logger] *)

(** A method of [*zap.Logger] called through the package variable: on a nil
    pointer the call dereferences nil and panics; otherwise the entry is
    written when the logger's level enables it. *)
Definition logger_write (lvl : zapcore.Level) (msg : string)
    (fields : list (string * Value)) : Go unit :=
  g <- get ;;
  match logger g with
  | None => panic nil_dereference
  | Some l =>
      if zapcore.Enabled (zap.Level l) lvl
      then emit (LogEntry lvl msg fields)
      else ret tt
  end.

Definition logger_Debug := logger_write zapcore.DebugLevel.
Definition logger_Info := logger_write zapcore.InfoLevel.

(** [logger.Fatal]: the entry, then [os.Exit(1)]. *)
Definition logger_Fatal {A : Type} (msg : string)
    (fields : list (string * Value)) : Go A :=
  logger_write zapcore.FatalLevel msg fields ;;;
  os_Exit 1.

Definition logger_Sync : Go unit :=
  g <- get ;;
  match logger g with
  | None => panic nil_dereference
  | Some _ => emit LoggerSync
  end.

(** [logConfig.Build()] for [zap.NewProductionConfig()] with its level set:
    the production configuration writes to standard error and its build is
    taken to succeed (the code discards its error). *)
Definition zap_Build (lvl : zapcore.Level) : zap.Logger :=
  {| zap.Level := lvl |}.

(** [fmt.Println(operands...)]. *)
Definition Println_ (operands : list Value) : Go unit :=
  emit (Println operands).

(** A setter of the [viper] package applied to its process-wide instance. *)
Definition modify_viper (f : viper.Viper → viper.Viper) : Go unit :=
  modify (λ g, set_viperState (f (viperState g)) g).

(** ** Calls into the libraries, recorded in the trace *)

Section Calls.
Context (env : Env).

Definition viper_ReadInConfig_call : Go (string + Error) :=
  g <- get ;;
  let answer := viper_ReadInConfig env (viperState g) in
  emit (ReadInConfig (viperState g) answer) ;;;
  match answer with
  | inl used =>
      (* the file read is what [viper.ConfigFileUsed()] answers from now on *)
      modify (λ g, set_viperState (viper.SetConfigFile used (viperState g)) g) ;;;
      ret answer
  | inr _ => ret answer
  end.

Definition viper_ConfigFileUsed : Go string :=
  g <- get ;;
  ret (viper.configFile (viperState g)).

Definition kubeConfig_ClientConfig
    (kubeConfig : clientcmd.DeferredLoadingClientConfig)
  : Go (rest.Config + Error) :=
  let answer := clientcmd_ClientConfig env kubeConfig in
  emit (LoadClientConfig kubeConfig answer) ;;;
  ret answer.

Definition kubeConfig_Namespace
    (kubeConfig : clientcmd.DeferredLoadingClientConfig)
  : Go (string * bool * option Error) :=
  let answer := clientcmd_Namespace env kubeConfig in
  emit (ResolveNamespace kubeConfig answer) ;;;
  ret answer.

(** [kubernetes.NewForConfigOrDie]: panics with the error of
    [NewForConfig]. *)
Definition kubernetes_NewForConfigOrDie (c : rest.Config)
  : Go kubernetes.Clientset :=
  let answer := kubernetes_NewForConfig env c in
  emit (BuildClient c answer) ;;;
  match answer with
  | inl cs => ret cs
  | inr err => panic err
  end.

(** [kubeClient.Core().Pods(namespace).List(metav1.ListOptions{})] through
    the package variable [kubeClient]. *)
Definition kubeClient_Pods_List (namespace : string)
  : Go (PodList * option Error) :=
  g <- get ;;
  match kubeClient g with
  | None => panic nil_dereference
  | Some cs =>
      let answer := Pods_List env cs namespace in
      emit (ListPods cs namespace answer) ;;;
      ret answer
  end.

End Calls.

(** ** Flags

    A flag binds a name to a package-level variable.  The flag set is
    pflag's map from flag name to flag; defining a name twice panics. *)

Inductive StringVarRef : Type :=
| ref_cfgFile
| ref_kubeConfigFile
(** a field of [kubeClientConfigOverrides], by un-prefixed flag name *)
| ref_override (field : string).

Inductive FlagValue : Type :=
| stringValue (p : StringVarRef)
(** [&interactive] *)
| boolValue_interactive
(** [&logLevel], a [flag.Value] wrapped by [AddGoFlag] *)
| goValue_logLevel.

#[global] Instance StringVarRef_eq_dec : EqDecision StringVarRef.
Proof. solve_decision. Defined.

#[global] Instance FlagValue_eq_dec : EqDecision FlagValue.
Proof. solve_decision. Defined.

Record Flag : Type :=
  { Value_ : FlagValue; DefValue : string; Hidden : bool }.

Abbreviation FlagSet := (gmap string Flag).

Definition store (p : StringVarRef) (s : string) (g : Globals) : Globals :=
  match p with
  | ref_cfgFile => set_cfgFile s g
  | ref_kubeConfigFile => set_kubeConfigFile s g
  | ref_override field =>
      set_kubeClientConfigOverrides
        (<[field := s]> (kubeClientConfigOverrides g)) g
  end.

(** [FlagSet.AddFlag]: [None] stands for the panic on a redefined flag. *)
Definition AddFlag (name : string) (f : Flag) (fs : FlagSet)
  : option FlagSet :=
  match fs !! name with
  | Some _ => None
  | None => Some (<[name := f]> fs)
  end.

(** [flags.StringVar(p, name, value, usage)]: the variable takes the
    default, the flag is added. *)
Definition StringVar (p : StringVarRef) (name value : string)
    (st : FlagSet * Globals) : option (FlagSet * Globals) :=
  fs ← AddFlag name
         {| Value_ := stringValue p; DefValue := value; Hidden := false |}
         (fst st);
  Some (fs, store p value (snd st)).

(** [flags.BoolVarP(&interactive, name, shorthand, value, usage)]. *)
Definition BoolVarP_interactive (name : string) (value : bool)
    (st : FlagSet * Globals) : option (FlagSet * Globals) :=
  fs ← AddFlag name
         {| Value_ := boolValue_interactive;
            DefValue := if value then "true" else "false";
            Hidden := false |}
         (fst st);
  Some (fs, set_interactive value (snd st)).

(** [flags.AddGoFlag(&flag.Flag{Name: name, Value: &logLevel, DefValue})]:
    a name already present is left alone; the variable is not touched. *)
Definition AddGoFlag_logLevel (name defValue : string)
    (st : FlagSet * Globals) : option (FlagSet * Globals) :=
  match fst st !! name with
  | Some _ => Some st
  | None =>
      Some (<[name := {| Value_ := goValue_logLevel; DefValue := defValue;
                         Hidden := false |}]> (fst st), snd st)
  end.

(** [clientcmd.RecommendedConfigOverrideFlags(prefix)]: the library's flag
    names behind [prefix], each with the field it is bound to. *)
Definition RecommendedConfigOverrideFlags (env : Env) (prefix : string)
  : list (string * string) :=
  map (λ field, (prefix +:+ field, field)) (clientcmd_OverrideFlagNames env).

(** [clientcmd.BindOverrideFlags(kubeClientConfigOverrides, flags, names)]:
    one string flag per field.  The fields keep their zero values. *)
Fixpoint BindOverrideFlags (names : list (string * string)) (fs : FlagSet)
  : option FlagSet :=
  match names with
  | [] => Some fs
  | (name, field) :: rest =>
      fs' ← AddFlag name
              {| Value_ := stringValue (ref_override field); DefValue := "";
                 Hidden := false |}
              fs;
      BindOverrideFlags rest fs'
  end.

(** [VisitAll] with [MarkHidden] on every flag of the set. *)
Definition MarkHidden_all (fs : FlagSet) : FlagSet :=
  (λ f, {| Value_ := Value_ f; DefValue := DefValue f; Hidden := true |})
    <$> fs.

(** [flags.AddFlagSet(new)]: the flags of [new] whose names are free. *)
Definition AddFlagSet (new : FlagSet) (fs : FlagSet) : FlagSet := fs ∪ new.

(** [strconv.ParseBool]. *)
Definition ParseBool (s : string) : option bool :=
  if bool_decide (s ∈ ["1"; "t"; "T"; "TRUE"; "true"; "True"]) then Some true
  else if bool_decide (s ∈ ["0"; "f"; "F"; "FALSE"; "false"; "False"])
       then Some false
       else None.

(** [flag.Value.Set(s)] on the variable the flag is bound to. *)
Definition Set_ (env : Env) (v : FlagValue) (s : string) (g : Globals)
  : Globals + Error :=
  match v with
  | stringValue p => inl (store p s g)
  | boolValue_interactive =>
      match ParseBool s with
      | Some b => inl (set_interactive b g)
      | None => inr ("invalid boolean value " +:+ s)
      end
  | goValue_logLevel =>
      match zapcore_Level_Set env s with
      | inl l => inl (set_logLevel l g)
      | inr err => inr err
      end
  end.

(** The command line as pflag reads it: the flags given, in order, each
    with its argument ([--interactive] alone arrives as ["true"]). *)
Definition CommandLine : Type := list (string * string).

(** [FlagSet.Parse]: each flag is looked up by name and set; the first
    unknown name or refused value ends the parse with its error, the
    variables set so far keeping their values. *)
Fixpoint ParseFlags (env : Env) (fs : FlagSet) (args : CommandLine)
    (g : Globals) : Globals * option Error :=
  match args with
  | [] => (g, None)
  | (name, s) :: rest =>
      match fs !! name with
      | None => (g, Some ("unknown flag: --" +:+ name))
      | Some f =>
          match Set_ env (Value_ f) s g with
          | inl g' => ParseFlags env fs rest g'
          | inr err => (g, Some err)
          end
      end
  end.

(** [rootCmd.Execute()] for a runnable command (the template leaves the
    action to its user, and cobra only shows the help of a command without
    one): cobra parses the flags and hands a parse error back to the
    caller; otherwise the [cobra.OnInitialize] callbacks run, then
    [PersistentPreRun], then the action.  What cobra prints of its own
    (usage, its copy of the error) is not in the trace. *)
Definition rootCmd_Execute (env : Env) (fs : FlagSet)
    (onInitialize PersistentPreRun : Go unit) (args : CommandLine)
  : Go (option Error) :=
  g <- get ;;
  match ParseFlags env fs args g with
  | (g', Some err) =>
      modify (λ _, g') ;;;
      ret (Some err)
  | (g', None) =>
      modify (λ _, g') ;;;
      onInitialize ;;;
      PersistentPreRun ;;;
      emit RunAction ;;;
      ret None
  end.

(** A process: the package initialisation [init] (a panic there ends the
    process before [main]), then [main], which calls [Execute]. *)
Definition process (init : option (FlagSet * Globals))
    (Execute : FlagSet → Go unit)
  : Outcome unit * Globals * list Event :=
  match init with
  | None => (Panic "flag redefined", zero_Globals, [])
  | Some (fs, g0) => Execute fs g0
  end.

(** ** src/cmd/root.go *)

Module RootGo.
Section WithEnv.
Context (env : Env).

Definition PersistentPreRun : Go unit :=
  g <- get ;;
  let kubeConfigLoader := NewDefaultClientConfigLoadingRules env in
  let kubeConfigLoader :=
    if nonempty (kubeConfigFile g)
    then clientcmd.set_ExplicitPath (kubeConfigFile g) kubeConfigLoader
    else kubeConfigLoader in
  let kubeConfig :=
    if interactive g
    then clientcmd.NewInteractiveDeferredLoadingClientConfig
           kubeConfigLoader (kubeClientConfigOverrides g) os_Stdin
    else clientcmd.NewNonInteractiveDeferredLoadingClientConfig
           kubeConfigLoader (kubeClientConfigOverrides g) in
  r <- kubeConfig_ClientConfig env kubeConfig ;;
  restConfig <- match r with
                | inr err => Println_ [VError (Some err)] ;;; os_Exit 1
                | inl c => ret c
                end ;;
  client <- kubernetes_NewForConfigOrDie env restConfig ;;
  modify (set_kubeClient (Some client)) ;;;
  ns <- kubeConfig_Namespace env kubeConfig ;;
  let namespace := fst (fst ns) in
  answer <- kubeClient_Pods_List env namespace ;;
  Println_ [VPods (fst answer); VError (snd answer)].

Definition init : option (FlagSet * Globals) :=
  (* cobra.OnInitialize(initConfig): see [Execute] *)
  st ← StringVar ref_cfgFile "config" "" (∅, zero_Globals);
  st ← BoolVarP_interactive "interactive" false st;
  fs ← BindOverrideFlags (RecommendedConfigOverrideFlags env "") (fst st);
  match homedir_Dir env with
  | inl _ =>
      StringVar ref_kubeConfigFile clientcmd.RecommendedConfigPathFlag
        (clientcmd_RecommendedHomeFile env) (fs, snd st)
  | inr _ =>
      StringVar ref_kubeConfigFile clientcmd.RecommendedConfigPathFlag
        "" (fs, snd st)
  end.

Definition initConfig : Go unit :=
  g <- get ;;
  (if nonempty (cfgFile g)
   then modify_viper (viper.SetConfigFile (cfgFile g))
   else
     match homedir_Dir env with
     | inl home => modify_viper (viper.AddConfigPath home)
     | inr _ => ret tt
     end ;;;
     modify_viper (viper.AddConfigPath ".") ;;;
     modify_viper (viper.SetConfigName ".kube-client-template")) ;;;
  modify_viper viper.AutomaticEnv ;;;
  r <- viper_ReadInConfig_call env ;;
  match r with
  | inl _ =>
      used <- viper_ConfigFileUsed ;;
      Println_ [VString "Using config file:"; VString used]
  | inr _ => ret tt
  end.

Definition Execute (fs : FlagSet) (args : CommandLine) : Go unit :=
  err <- rootCmd_Execute env fs initConfig PersistentPreRun args ;;
  match err with
  | Some e =>
      Println_ [VError (Some e)] ;;;
      os_Exit 1
  | None => ret tt
  end.

Definition main (args : CommandLine)
  : Outcome unit * Globals * list Event :=
  process init (λ fs, Execute fs args).

End WithEnv.
End RootGo.

(** ** src/unnamed/part_000 *)

Module Part000.
Section WithEnv.
Context (env : Env).

Definition PersistentPreRun : Go unit :=
  g <- get ;;
  (* logConfig.Level.SetLevel(logLevel); logger, _ = logConfig.Build();
     zap.ReplaceGlobals and zap.RedirectStdLog change nothing this file
     reads back *)
  modify (set_logger (Some (zap_Build (logLevel g)))) ;;;
  defer logger_Sync
    (let kubeConfigLoader := NewDefaultClientConfigLoadingRules env in
     kubeConfigLoader <-
       (if nonempty (kubeConfigFile g)
        then
          logger_Info "using specified kube config file"
            [("file", VString (kubeConfigFile g))] ;;;
          ret (clientcmd.set_ExplicitPath (kubeConfigFile g) kubeConfigLoader)
        else ret kubeConfigLoader) ;;
     let kubeConfig :=
       clientcmd.NewNonInteractiveDeferredLoadingClientConfig
         kubeConfigLoader (kubeClientConfigOverrides g) in
     r <- kubeConfig_ClientConfig env kubeConfig ;;
     restConfig <- match r with
                   | inr err =>
                       logger_Fatal "failed to get REST config"
                         [("error", VError (Some err))]
                   | inl c => ret c
                   end ;;
     client <- kubernetes_NewForConfigOrDie env restConfig ;;
     modify (set_kubeClient (Some client)) ;;;
     ns <- kubeConfig_Namespace env kubeConfig ;;
     let namespace := fst (fst ns) in
     logger_Debug "running against namespace"
       [("namespace", VString namespace)] ;;;
     answer <- kubeClient_Pods_List env namespace ;;
     match snd answer with
     | Some err =>
         logger_Fatal "failed to list pods" [("error", VError (Some err))]
     | None => ret tt
     end ;;;
     logger_Info "returned pods" [("pods", VPods (fst answer))]).

Definition init : option (FlagSet * Globals) :=
  (* cobra.OnInitialize(initConfig): see [Execute] *)
  st ← StringVar ref_cfgFile "config" "" (∅, zero_Globals);
  st ← AddGoFlag_logLevel "log-level" "info" st;
  (* kubernetesFlagSet := pflag.NewFlagSet(...) *)
  kubernetesFlagSet ←
    BindOverrideFlags (RecommendedConfigOverrideFlags env "kubernetes-") ∅;
  kst ← StringVar ref_kubeConfigFile "kubernetes-config" ""
          (kubernetesFlagSet, snd st);
  let kubernetesFlagSet := MarkHidden_all (fst kst) in
  Some (AddFlagSet kubernetesFlagSet (fst st), snd kst).

Definition initConfig : Go unit :=
  g <- get ;;
  (if nonempty (cfgFile g)
   then modify_viper (viper.SetConfigFile (cfgFile g))
   else
     match homedir_Dir env with
     | inl home => modify_viper (viper.AddConfigPath home)
     | inr _ => ret tt
     end ;;;
     modify_viper (viper.AddConfigPath ".") ;;;
     modify_viper (viper.SetConfigName ".kube-client-template")) ;;;
  modify_viper viper.AutomaticEnv ;;;
  r <- viper_ReadInConfig_call env ;;
  match r with
  | inl _ =>
      used <- viper_ConfigFileUsed ;;
      logger_Info "loaded config from file" [("file", VString used)]
  | inr _ => ret tt
  end.

Definition Execute (fs : FlagSet) (args : CommandLine) : Go unit :=
  err <- rootCmd_Execute env fs initConfig PersistentPreRun args ;;
  match err with
  | Some e => logger_Fatal "root command failed" [("error", VError (Some e))]
  | None => ret tt
  end.

Definition main (args : CommandLine)
  : Outcome unit * Globals * list Event :=
  process init (λ fs, Execute fs args).

End WithEnv.
End Part000.

(** ** src/unnamed/part_001 *)

Module Part001.
Section WithEnv.
Context (env : Env).

Definition PersistentPreRun : Go unit :=
  g <- get ;;
  (* logConfig.Level.SetLevel(logLevel); logger, _ = logConfig.Build();
     zap.ReplaceGlobals and zap.RedirectStdLog change nothing this file
     reads back *)
  modify (set_logger (Some (zap_Build (logLevel g)))) ;;;
  defer logger_Sync
    (let kubeConfigLoader := NewDefaultClientConfigLoadingRules env in
     kubeConfigLoader <-
       (if nonempty (kubeConfigFile g)
        then
          logger_Info "using specified kube config file"
            [("file", VString (kubeConfigFile g))] ;;;
          ret (clientcmd.set_ExplicitPath (kubeConfigFile g) kubeConfigLoader)
        else ret kubeConfigLoader) ;;
     let kubeConfig :=
       clientcmd.NewNonInteractiveDeferredLoadingClientConfig
         kubeConfigLoader (kubeClientConfigOverrides g) in
     r <- kubeConfig_ClientConfig env kubeConfig ;;
     restConfig <- match r with
                   | inr err =>
                       logger_Fatal "failed to get REST config"
                         [("error", VError (Some err))]
                   | inl c => ret c
                   end ;;
     client <- kubernetes_NewForConfigOrDie env restConfig ;;
     modify (set_kubeClient (Some client)) ;;;
     ns <- kubeConfig_Namespace env kubeConfig ;;
     let namespace := fst (fst ns) in
     logger_Debug "running against namespace"
       [("namespace", VString namespace)] ;;;
     answer <- kubeClient_Pods_List env namespace ;;
     match snd answer with
     | Some err =>
         logger_Fatal "failed to list pods" [("error", VError (Some err))]
     | None => ret tt
     end ;;;
     logger_Info "returned pods" [("pods", VPods (fst answer))]).

Definition init : option (FlagSet * Globals) :=
  (* cobra.OnInitialize(initConfig): see [Execute] *)
  st ← StringVar ref_cfgFile "config" "" (∅, zero_Globals);
  st ← AddGoFlag_logLevel "log-level" "info" st;
  fs ← BindOverrideFlags (RecommendedConfigOverrideFlags env "kubernetes-")
         (fst st);
  StringVar ref_kubeConfigFile "kubernetes-config" "" (fs, snd st).

Definition initConfig : Go unit :=
  g <- get ;;
  (if nonempty (cfgFile g)
   then modify_viper (viper.SetConfigFile (cfgFile g))
   else
     match homedir_Dir env with
     | inl home => modify_viper (viper.AddConfigPath home)
     | inr _ => ret tt
     end ;;;
     modify_viper (viper.AddConfigPath ".") ;;;
     modify_viper (viper.SetConfigName ".kube-client-template")) ;;;
  modify_viper viper.AutomaticEnv ;;;
  r <- viper_ReadInConfig_call env ;;
  match r with
  | inl _ =>
      used <- viper_ConfigFileUsed ;;
      Println_ [VString "Using config file:"; VString used]
  | inr _ => ret tt
  end.

Definition Execute (fs : FlagSet) (args : CommandLine) : Go unit :=
  err <- rootCmd_Execute env fs initConfig PersistentPreRun args ;;
  match err with
  | Some e =>
      Println_ [VError (Some e)] ;;;
      os_Exit 1
  | None => ret tt
  end.

Definition main (args : CommandLine)
  : Outcome unit * Globals * list Event :=
  process init (λ fs, Execute fs args).

End WithEnv.
End Part001.

(** ** The three revisions side by side *)

Inductive Revision : Type := RevRootGo | RevPart000 | RevPart001.

Definition main (r : Revision) (env : Env) (args : CommandLine)
  : Outcome unit * Globals * list Event :=
  match r with
  | RevRootGo => RootGo.main env args
  | RevPart000 => Part000.main env args
  | RevPart001 => Part001.main env args
  end.

(** A function of the revision [r]. *)
Definition init (r : Revision) (env : Env) : option (FlagSet * Globals) :=
  match r with
  | RevRootGo => RootGo.init env
  | RevPart000 => Part000.init env
  | RevPart001 => Part001.init env
  end.

Definition initConfig (r : Revision) (env : Env) : Go unit :=
  match r with
  | RevRootGo => RootGo.initConfig env
  | RevPart000 => Part000.initConfig env
  | RevPart001 => Part001.initConfig env
  end.

Definition PersistentPreRun (r : Revision) (env : Env) : Go unit :=
  match r with
  | RevRootGo => RootGo.PersistentPreRun env
  | RevPart000 => Part000.PersistentPreRun env
  | RevPart001 => Part001.PersistentPreRun env
  end.

(** ** Vocabulary of the properties *)

(** *** Runs *)

Definition outcome_of (run : Outcome unit * Globals * list Event)
  : Outcome unit := run.1.1.
Definition globals_of (run : Outcome unit * Globals * list Event)
  : Globals := run.1.2.
Definition trace_of (run : Outcome unit * Globals * list Event)
  : list Event := run.2.

(** The exit status of the process. *)
Definition status (run : Outcome unit * Globals * list Event) : Z :=
  exit_status (outcome_of run).

(** *** Flags *)

(** What each revision calls its flags: [RootGo] binds the override flags
    under their own names and the path under [--kubeconfig]; the logging
    revisions put [kubernetes-] in front. *)
Definition prefix (r : Revision) : string :=
  match r with
  | RevRootGo => ""
  | RevPart000 | RevPart001 => "kubernetes-"
  end.

Definition kubeconfig_flag (r : Revision) : string :=
  match r with
  | RevRootGo => clientcmd.RecommendedConfigPathFlag
  | RevPart000 | RevPart001 => "kubernetes-config"
  end.

(** The default of the kubeconfig path flag: [RootGo] registers
    [clientcmd.RecommendedHomeFile] when [homedir.Dir()] succeeds. *)
Definition default_kubeConfigFile (r : Revision) (env : Env) : string :=
  match r with
  | RevRootGo =>
      match homedir_Dir env with
      | inl _ => clientcmd_RecommendedHomeFile env
      | inr _ => ""
      end
  | RevPart000 | RevPart001 => ""
  end.

(** The value a flag was last given on the command line, if any. *)
Fixpoint given (name : string) (args : CommandLine) : option string :=
  match args with
  | [] => None
  | (n, s) :: rest =>
      match given name rest with
      | Some v => Some v
      | None => if String.eqb n name then Some s else None
      end
  end.

(** The variable behind a string flag, read back. *)
Definition read (p : StringVarRef) (g : Globals) : option string :=
  match p with
  | ref_cfgFile => Some (cfgFile g)
  | ref_kubeConfigFile => Some (kubeConfigFile g)
  | ref_override field => kubeClientConfigOverrides g !! field
  end.

(** The part of the package state that flags cannot reach. *)
Definition runtime_state (g : Globals)
  : option kubernetes.Clientset * option zap.Logger * viper.Viper :=
  (kubeClient g, logger g, viperState g).

(** The part of the package state that flags set: the Invocation Flags. *)
Definition flag_state (g : Globals)
  : string * bool * zapcore.Level * string * clientcmd.ConfigOverrides :=
  (cfgFile g, interactive g, logLevel g, kubeConfigFile g,
   kubeClientConfigOverrides g).

(** [bound_at r env name f]: the variable behind [f] is the one revision
    [r] binds under [name]. *)
Definition bound_at (r : Revision) (env : Env) (name : string) (f : Flag)
  : Prop :=
  match Value_ f with
  | stringValue ref_cfgFile => name = "config"
  | stringValue ref_kubeConfigFile => name = kubeconfig_flag r
  | stringValue (ref_override field) =>
      name = prefix r +:+ field ∧ In field (clientcmd_OverrideFlagNames env)
  | boolValue_interactive => name = "interactive" ∧ r = RevRootGo
  | goValue_logLevel => name = "log-level" ∧ r ≠ RevRootGo
  end.

(** The flag set [init] builds: every variable under its one name. *)
Record flags_ok (r : Revision) (env : Env) (fs : FlagSet) : Prop :=
  { flags_bound : ∀ n x, fs !! n = Some x → bound_at r env n x;
    flags_config :
      ∃ f, fs !! "config" = Some f ∧ Value_ f = stringValue ref_cfgFile;
    flags_kubeconfig :
      ∃ f, fs !! kubeconfig_flag r = Some f
           ∧ Value_ f = stringValue ref_kubeConfigFile;
    flags_override :
      ∀ field, In field (clientcmd_OverrideFlagNames env) →
        ∃ f, fs !! (prefix r +:+ field) = Some f
             ∧ Value_ f = stringValue (ref_override field);
    flags_interactive :
      r = RevRootGo →
      ∃ f, fs !! "interactive" = Some f ∧ Value_ f = boolValue_interactive }.

(** The package variables [init] leaves. *)
Definition globals_fresh (r : Revision) (env : Env) (g0 : Globals) : Prop :=
  flag_state g0
    = ("", false, zapcore.InfoLevel, default_kubeConfigFile r env, ∅)
  ∧ runtime_state g0 = (None, None, viper.New).

(** *** The hooks *)

(** The settings [initConfig] has made when it calls [ReadInConfig]. *)
Definition resolver_settings (env : Env) (g : Globals) : viper.Viper :=
  viper.AutomaticEnv
    (if nonempty (cfgFile g)
     then viper.SetConfigFile (cfgFile g) (viperState g)
     else
       viper.SetConfigName ".kube-client-template"
         (viper.AddConfigPath "."
            match homedir_Dir env with
            | inl home => viper.AddConfigPath home (viperState g)
            | inr _ => viperState g
            end)).

(** The loader [PersistentPreRun] builds from the flags. *)
Definition kubeConfig_of (r : Revision) (env : Env) (g : Globals)
  : clientcmd.DeferredLoadingClientConfig :=
  {| clientcmd.loader :=
       if nonempty (kubeConfigFile g)
       then clientcmd.set_ExplicitPath (kubeConfigFile g)
              (NewDefaultClientConfigLoadingRules env)
       else NewDefaultClientConfigLoadingRules env;
     clientcmd.overrides := kubeClientConfigOverrides g;
     clientcmd.fallbackReader :=
       match r with
       | RevRootGo => if interactive g then Some os_Stdin else None
       | RevPart000 | RevPart001 => None
       end |}.

(** The entries a logger of minimum [min] writes for one call. *)
Definition entry (min lvl : zapcore.Level) (msg : string)
    (fields : list (string * Value)) : list Event :=
  if zapcore.Enabled min lvl then [LogEntry lvl msg fields] else [].

(** What cobra runs once the flags are parsed. *)
Definition hooks (r : Revision) (env : Env) : Go unit :=
  initConfig r env ;;;
  PersistentPreRun r env ;;;
  emit RunAction.

(** What [Execute] does with the error of a refused command line. *)
Definition refused (r : Revision) (err : Error) (g : Globals)
  : Outcome unit * Globals * list Event :=
  match r with
  | RevRootGo | RevPart001 => (Exit 1, g, [Println [VError (Some err)]])
  | RevPart000 =>
      match logger g with
      | None => (Panic nil_dereference, g, [])
      | Some l =>
          (Exit 1, g,
           [LogEntry zapcore.FatalLevel "root command failed"
              [("error", VError (Some err))]])
      end
  end.

(** The rest of a run once the Config Resolver has left the settings [v]
    behind: the pre-run hook, then the action. *)
Definition after_resolver (r : Revision) (env : Env) (v : viper.Viper)
    (g : Globals) : Outcome unit * Globals * list Event :=
  (PersistentPreRun r env ;;; emit RunAction) (set_viperState v g).

(** *** Reading a trace *)

(** [reports err e]: the line or log entry [e] carries the error [err]. *)
Definition reports (err : Error) (e : Event) : Prop :=
  match e with
  | Println operands => In (VError (Some err)) operands
  | LogEntry _ _ fields => ∃ key, In (key, VError (Some err)) fields
  | _ => False
  end.

Definition reported (err : Error) (t : list Event) : Prop :=
  ∃ e, In e t ∧ reports err e.

(** The components of the specification, and the library call by which
    each one shows in a trace. *)
Inductive Step : Type :=
| ConfigResolver | CredentialLoader | ClientFactory | ProbeAction
| CommandAction.

Definition step_of (e : Event) : option Step :=
  match e with
  | ReadInConfig _ _ => Some ConfigResolver
  | LoadClientConfig _ _ => Some CredentialLoader
  | BuildClient _ _ => Some ClientFactory
  | ListPods _ _ _ => Some ProbeAction
  | RunAction => Some CommandAction
  | Println _ | LogEntry _ _ _ | LoggerSync | ResolveNamespace _ _ => None
  end.

Definition steps (t : list Event) : list Step := omap step_of t.

Definition pipeline : list Step :=
  [ConfigResolver; CredentialLoader; ClientFactory; ProbeAction;
   CommandAction].

(** The search [initConfig] sets up when no [--config] is given: the home
    directory when there is one, then the working directory, for the base
    name of the application. *)
Definition default_discovery (env : Env) (v : viper.Viper) : Prop :=
  viper.configFile v = ""
  ∧ viper.configPaths v = match homedir_Dir env with
                          | inl home => [home; "."]
                          | inr _ => ["."]
                          end
  ∧ viper.configName v = ".kube-client-template".

(** The file at [p] cannot be read, whatever else viper was told. *)
Definition config_file_missing (env : Env) (p : string) : Prop :=
  ∀ v, viper.configFile v = p → ∃ err, viper_ReadInConfig env v = inr err.

(** The library gives the namespace override precedence. *)
Definition namespace_override_honoured (env : Env) : Prop :=
  ∀ c ns, clientcmd.overrides c !! "namespace" = Some ns → ns ≠ "" →
          (clientcmd_Namespace env c).1.1 = ns.

(** Two environments in which flags parse alike and the kubeconfig
    libraries answer alike; the application config file, the client
    construction and the API server may differ. *)
Record same_kubeconfig (env1 env2 : Env) : Prop :=
  { same_homedir : homedir_Dir env1 = homedir_Dir env2;
    same_home_file :
      clientcmd_RecommendedHomeFile env1 = clientcmd_RecommendedHomeFile env2;
    same_override_names :
      clientcmd_OverrideFlagNames env1 = clientcmd_OverrideFlagNames env2;
    same_precedence :
      clientcmd_DefaultPrecedence env1 = clientcmd_DefaultPrecedence env2;
    same_levels : ∀ s, zapcore_Level_Set env1 s = zapcore_Level_Set env2 s;
    same_ClientConfig :
      ∀ c, clientcmd_ClientConfig env1 c = clientcmd_ClientConfig env2 c;
    same_Namespace :
      ∀ c, clientcmd_Namespace env1 c = clientcmd_Namespace env2 c }.

(** The environment in which namespace resolution answers the same
    namespace without an error. *)
Definition without_namespace_error (env : Env) : Env :=
  {| homedir_Dir := homedir_Dir env;
     clientcmd_RecommendedHomeFile := clientcmd_RecommendedHomeFile env;
     clientcmd_OverrideFlagNames := clientcmd_OverrideFlagNames env;
     clientcmd_DefaultPrecedence := clientcmd_DefaultPrecedence env;
     viper_ReadInConfig := viper_ReadInConfig env;
     zapcore_Level_Set := zapcore_Level_Set env;
     clientcmd_ClientConfig := clientcmd_ClientConfig env;
     clientcmd_Namespace := λ c, ((clientcmd_Namespace env c).1, None);
     kubernetes_NewForConfig := kubernetes_NewForConfig env;
     Pods_List := Pods_List env |}.

Definition forget_namespace_error (e : Event) : Event :=
  match e with
  | ResolveNamespace c answer => ResolveNamespace c (answer.1, None)
  | _ => e
  end.

(** ** Concrete environments

    A workstation used for the closed examples: a home directory with a
    kubeconfig, a cluster that answers, no application config file.  The
    scenarios after it change one answer each. *)

Definition sample_restConfig : rest.Config :=
  {| rest.Host := "https://10.0.0.1:6443"; rest.AuthMaterial := "token-u" |}.

Definition sample_client : kubernetes.Clientset :=
  {| kubernetes.config := sample_restConfig |}.

Definition sample_Level_Set (s : string) : zapcore.Level + Error :=
  if String.eqb s "debug" then inl zapcore.DebugLevel
  else if String.eqb s "info" then inl zapcore.InfoLevel
  else if String.eqb s "error" then inl zapcore.ErrorLevel
  else inr ("unrecognized level: " +:+ s).

(** A namespace resolver that honours the [namespace] override and answers
    [default] otherwise. *)
Definition sample_Namespace (c : clientcmd.DeferredLoadingClientConfig)
  : string * bool * option Error :=
  match clientcmd.overrides c !! "namespace" with
  | Some ns => if nonempty ns then (ns, true, None)
               else ("default", false, None)
  | None => ("default", false, None)
  end.

Definition workstation : Env :=
  {| homedir_Dir := inl "/home/u";
     clientcmd_RecommendedHomeFile := "/home/u/.kube/config";
     clientcmd_OverrideFlagNames := ["cluster"; "user"; "context"; "namespace"];
     clientcmd_DefaultPrecedence := ["/home/u/.kube/config"];
     viper_ReadInConfig := λ _, inr "config file not found";
     zapcore_Level_Set := sample_Level_Set;
     clientcmd_ClientConfig := λ _, inl sample_restConfig;
     clientcmd_Namespace := sample_Namespace;
     kubernetes_NewForConfig := λ c, inl {| kubernetes.config := c |};
     Pods_List := λ _ _, (["pod-a"; "pod-b"], None) |}.

(** The workstation with [$HOME/.kube-client-template.yaml] in place: a
    search that includes the home directory finds it, any explicit path
    is missing. *)
Definition home_config_ReadInConfig (v : viper.Viper) : string + Error :=
  if nonempty (viper.configFile v)
  then inr ("open " +:+ viper.configFile v +:+ ": no such file or directory")
  else if bool_decide ("/home/u" ∈ viper.configPaths v)
       then inl "/home/u/.kube-client-template.yaml"
       else inr "config file not found".

Definition with_home_config : Env :=
  {| homedir_Dir := inl "/home/u";
     clientcmd_RecommendedHomeFile := "/home/u/.kube/config";
     clientcmd_OverrideFlagNames := ["cluster"; "user"; "context"; "namespace"];
     clientcmd_DefaultPrecedence := ["/home/u/.kube/config"];
     viper_ReadInConfig := home_config_ReadInConfig;
     zapcore_Level_Set := sample_Level_Set;
     clientcmd_ClientConfig := λ _, inl sample_restConfig;
     clientcmd_Namespace := sample_Namespace;
     kubernetes_NewForConfig := λ c, inl {| kubernetes.config := c |};
     Pods_List := λ _ _, (["pod-a"; "pod-b"], None) |}.

(** The workstation without a kubeconfig and outside a cluster. *)
Definition no_configuration : Error :=
  "invalid configuration: no configuration has been provided".

Definition without_kubeconfig : Env :=
  {| homedir_Dir := inl "/home/u";
     clientcmd_RecommendedHomeFile := "/home/u/.kube/config";
     clientcmd_OverrideFlagNames := ["cluster"; "user"; "context"; "namespace"];
     clientcmd_DefaultPrecedence := ["/home/u/.kube/config"];
     viper_ReadInConfig := λ _, inr "config file not found";
     zapcore_Level_Set := sample_Level_Set;
     clientcmd_ClientConfig := λ _, inr no_configuration;
     clientcmd_Namespace := sample_Namespace;
     kubernetes_NewForConfig := λ c, inl {| kubernetes.config := c |};
     Pods_List := λ _ _, (["pod-a"; "pod-b"], None) |}.

(** The workstation with the API server down. *)
Definition connection_refused : Error :=
  "dial tcp 10.0.0.1:6443: connect: connection refused".

Definition unreachable_cluster : Env :=
  {| homedir_Dir := inl "/home/u";
     clientcmd_RecommendedHomeFile := "/home/u/.kube/config";
     clientcmd_OverrideFlagNames := ["cluster"; "user"; "context"; "namespace"];
     clientcmd_DefaultPrecedence := ["/home/u/.kube/config"];
     viper_ReadInConfig := λ _, inr "config file not found";
     zapcore_Level_Set := sample_Level_Set;
     clientcmd_ClientConfig := λ _, inl sample_restConfig;
     clientcmd_Namespace := sample_Namespace;
     kubernetes_NewForConfig := λ c, inl {| kubernetes.config := c |};
     Pods_List := λ _ _, ([], Some connection_refused) |}.

(** The workstation with a namespace resolution that fails and answers the
    empty namespace. *)
Definition namespace_unresolved : Env :=
  {| homedir_Dir := inl "/home/u";
     clientcmd_RecommendedHomeFile := "/home/u/.kube/config";
     clientcmd_OverrideFlagNames := ["cluster"; "user"; "context"; "namespace"];
     clientcmd_DefaultPrecedence := ["/home/u/.kube/config"];
     viper_ReadInConfig := λ _, inr "config file not found";
     zapcore_Level_Set := sample_Level_Set;
     clientcmd_ClientConfig := λ _, inl sample_restConfig;
     clientcmd_Namespace := λ _, ("", false, Some "context was not found");
     kubernetes_NewForConfig := λ c, inl {| kubernetes.config := c |};
     Pods_List := λ _ _, (["pod-a"; "pod-b"], None) |}.

(** *** Vocabulary of the further properties *)

(** [accepts env v s]: the flag value [v] takes the argument [s]. *)
Definition accepts (env : Env) (v : FlagValue) (s : string) : bool :=
  match v with
  | stringValue _ => true
  | boolValue_interactive =>
      match ParseBool s with Some _ => true | None => false end
  | goValue_logLevel =>
      match zapcore_Level_Set env s with inl _ => true | inr _ => false end
  end.

(** The flags [Part000] collects in [kubernetesFlagSet]. *)
Definition is_kubernetes_value (v : FlagValue) : bool :=
  match v with
  | stringValue ref_kubeConfigFile | stringValue (ref_override _) => true
  | stringValue ref_cfgFile | boolValue_interactive | goValue_logLevel =>
      false
  end.

(** The un-prefixed names an override flag must not have, for its flag
    not to be one the revision defines itself. *)
Definition reserved (r : Revision) : list string :=
  match r with
  | RevRootGo => ["config"; "interactive"; clientcmd.RecommendedConfigPathFlag]
  | RevPart000 | RevPart001 => ["config"]
  end.

(** The library's table of override flags names each field once and none
    by a name of [reserved]. *)
Definition override_names_fit (r : Revision) (env : Env) : Prop :=
  NoDup (clientcmd_OverrideFlagNames env)
  ∧ ∀ n, In n (clientcmd_OverrideFlagNames env) → ¬ In n (reserved r).

(** [e] is a log entry. *)
Definition is_log (e : Event) : bool :=
  match e with
  | LogEntry _ _ _ => true
  | _ => false
  end.

(** A trace without its log entries. *)
Definition without_logs (t : list Event) : list Event :=
  List.filter (λ e, negb (is_log e)) t.

(** The workstation with a connection configuration no client can be
    built from. *)
Definition invalid_host : Error :=
  "host must be a URL or a host:port pair".

Definition unusable_configuration : Env :=
  {| homedir_Dir := inl "/home/u";
     clientcmd_RecommendedHomeFile := "/home/u/.kube/config";
     clientcmd_OverrideFlagNames := ["cluster"; "user"; "context"; "namespace"];
     clientcmd_DefaultPrecedence := ["/home/u/.kube/config"];
     viper_ReadInConfig := λ _, inr "config file not found";
     zapcore_Level_Set := sample_Level_Set;
     clientcmd_ClientConfig := λ _, inl sample_restConfig;
     clientcmd_Namespace := sample_Namespace;
     kubernetes_NewForConfig := λ _, inr invalid_host;
     Pods_List := λ _ _, (["pod-a"; "pod-b"], None) |}.

(** * Properties *)

(** ** Flag sets *)

Section FlagSets.

Lemma AddFlag_lookup name f (fs fs' : FlagSet) :
  AddFlag name f fs = Some fs' → fs' !! name = Some f.
Proof.
  unfold AddFlag. destruct (fs !! name); [discriminate|].
  intros [= <-]. apply lookup_insert_eq.
Qed.

Lemma AddFlag_keeps name f (fs fs' : FlagSet) n x :
  AddFlag name f fs = Some fs' → fs !! n = Some x → fs' !! n = Some x.
Proof.
  unfold AddFlag. destruct (fs !! name) eqn:E; [discriminate|].
  intros [= <-] Hn. rewrite lookup_insert_ne; [done|]. congruence.
Qed.

Lemma AddFlag_inv name f (fs fs' : FlagSet) n x :
  AddFlag name f fs = Some fs' → fs' !! n = Some x →
  (n = name ∧ x = f) ∨ fs !! n = Some x.
Proof.
  unfold AddFlag. destruct (fs !! name) eqn:E; [discriminate|].
  intros [= <-]. rewrite lookup_insert. case_decide; [|by right].
  intros [= <-]. by left.
Qed.

Lemma BindOverrideFlags_keeps names : ∀ (fs fs' : FlagSet) n x,
  BindOverrideFlags names fs = Some fs' → fs !! n = Some x →
  fs' !! n = Some x.
Proof.
  induction names as [|[name field] rest IH]; simpl; intros fs fs' n x.
  - by intros [= <-].
  - destruct (AddFlag name _ fs) as [fs1|] eqn:E; simpl; [|discriminate].
    intros Hb Hn. eapply IH; [exact Hb|]. eapply AddFlag_keeps; eauto.
Qed.

Lemma BindOverrideFlags_lookup names : ∀ (fs fs' : FlagSet) name field,
  BindOverrideFlags names fs = Some fs' → In (name, field) names →
  ∃ f, fs' !! name = Some f ∧ Value_ f = stringValue (ref_override field).
Proof.
  induction names as [|[name0 field0] rest IH]; simpl;
    intros fs fs' name field; [by intros _ []|].
  destruct (AddFlag name0 _ fs) as [fs1|] eqn:E; simpl; [|discriminate].
  intros Hb [[= -> ->]|Hin].
  - eexists. split.
    + eapply BindOverrideFlags_keeps; [exact Hb|].
      eapply AddFlag_lookup, E.
    + reflexivity.
  - eapply IH; eauto.
Qed.

Lemma BindOverrideFlags_inv names : ∀ (fs fs' : FlagSet) n x,
  BindOverrideFlags names fs = Some fs' → fs' !! n = Some x →
  (∃ field, In (n, field) names ∧ Value_ x = stringValue (ref_override field))
  ∨ fs !! n = Some x.
Proof.
  induction names as [|[name0 field0] rest IH]; simpl; intros fs fs' n x.
  - intros [= <-]. by right.
  - destruct (AddFlag name0 _ fs) as [fs1|] eqn:E; simpl; [|discriminate].
    intros Hb Hn. destruct (IH _ _ _ _ Hb Hn) as [(field & Hin & Hv)|H1].
    + left. exists field. auto.
    + destruct (AddFlag_inv _ _ _ _ _ _ E H1) as [[-> ->]|H0]; [|by right].
      left. exists field0. auto.
Qed.

Lemma In_RecommendedConfigOverrideFlags env p name field :
  In (name, field) (RecommendedConfigOverrideFlags env p) ↔
  name = p +:+ field ∧ In field (clientcmd_OverrideFlagNames env).
Proof.
  unfold RecommendedConfigOverrideFlags. rewrite in_map_iff. split.
  - intros (x & [= <- <-] & Hx). auto.
  - intros [-> H]. eauto.
Qed.

End FlagSets.

(** ** What [init] leaves behind *)

Ltac destruct_registration H :=
  repeat
    (simpl in H;
     match type of H with
     | context [AddFlag ?n ?f ?fs] =>
         let E := fresh "Hadd" in
         destruct (AddFlag n f fs) eqn:E; [|discriminate H]
     | context [BindOverrideFlags ?ns ?fs] =>
         let E := fresh "Hbind" in
         destruct (BindOverrideFlags ns fs) eqn:E; [|discriminate H]
     end).

Ltac invert_lookup H :=
  repeat
    match type of H with
    | ?fs' !! _ = Some _ =>
        match goal with
        | Ha : AddFlag _ _ _ = Some fs' |- _ =>
            let H' := fresh "Hl" in
            destruct (AddFlag_inv _ _ _ _ _ _ Ha H) as [[-> ->]|H'];
            [clear H|clear H; rename H' into H]
        | Hb : BindOverrideFlags _ _ = Some fs' |- _ =>
            let H' := fresh "Hl" in
            destruct (BindOverrideFlags_inv _ _ _ _ _ Hb H)
              as [(? & ?%In_RecommendedConfigOverrideFlags & ?)|H'];
            [clear H|clear H; rename H' into H]
        end
    end.

Create HintDb flags.

#[local] Hint Resolve AddFlag_keeps AddFlag_lookup BindOverrideFlags_keeps
  : flags.

Section Init.
Context (env : Env).

Lemma RootGo_init_spec fs g0 :
  RootGo.init env = Some (fs, g0) →
  flags_ok RevRootGo env fs ∧ globals_fresh RevRootGo env g0.
Proof.
  unfold RootGo.init, StringVar, BoolVarP_interactive. intros H.
  assert (default_kubeConfigFile RevRootGo env
          = match homedir_Dir env with
            | inl _ => clientcmd_RecommendedHomeFile env | inr _ => "" end)
    as Hd by reflexivity.
  destruct_registration H.
  destruct (homedir_Dir env); destruct_registration H;
    injection H as <- <-.
  all: split; [|by unfold globals_fresh; rewrite Hd].
  all: split.
  all: try (intros n x Hn; invert_lookup Hn; unfold bound_at;
            first [ by rewrite lookup_empty in Hn
                  | by (simpl; intuition congruence)
                  | match goal with Hv : Value_ _ = _ |- _ =>
                      rewrite Hv; tauto end ]).
  all: try (eexists; split; [eauto 6 with flags|reflexivity]).
  all: try (intros _; eexists; split; [eauto 6 with flags|reflexivity]).
  all: intros field Hin;
    match goal with Hb : BindOverrideFlags _ _ = Some _ |- _ =>
      destruct (BindOverrideFlags_lookup _ _ _ ("" +:+ field) field Hb)
        as (f & Hf & Hv); [by apply In_RecommendedConfigOverrideFlags|]
    end;
    exists f; split; [eauto with flags|done].
Qed.

Lemma AddGoFlag_logLevel_inv name d st st' :
  AddGoFlag_logLevel name d st = Some st' →
  st'.2 = st.2
  ∧ (∀ n x, st'.1 !! n = Some x →
       (n = name ∧ Value_ x = goValue_logLevel) ∨ st.1 !! n = Some x)
  ∧ (∀ n x, st.1 !! n = Some x → st'.1 !! n = Some x).
Proof.
  unfold AddGoFlag_logLevel. destruct (st.1 !! name) eqn:E.
  - intros [= <-]. auto.
  - intros [= <-]. simpl. split; [done|]. split; intros n x.
    + rewrite lookup_insert. case_decide; [|by right].
      intros [= <-]. left. auto.
    + intros Hn. rewrite lookup_insert_ne; [done|]. congruence.
Qed.

Lemma Part001_init_spec fs g0 :
  Part001.init env = Some (fs, g0) →
  flags_ok RevPart001 env fs ∧ globals_fresh RevPart001 env g0.
Proof.
  unfold Part001.init, StringVar. intros H.
  destruct_registration H. simpl in H.
  destruct (AddGoFlag_logLevel _ _ _) as [st|] eqn:Hgo; simpl in H;
    [|discriminate].
  apply AddGoFlag_logLevel_inv in Hgo as (Hg & Hinv & Hkeep).
  simpl in Hg, Hinv, Hkeep.
  destruct_registration H. injection H as <- <-.
  split; [|by unfold globals_fresh; rewrite Hg].
  split.
  - intros n x Hn. invert_lookup Hn; unfold bound_at.
    + done.
    + match goal with Hv : Value_ _ = _ |- _ => rewrite Hv; tauto end.
    + apply Hinv in Hn as [[-> Hv]|Hn]; [by rewrite Hv|].
      invert_lookup Hn; [done|]. by rewrite lookup_empty in Hn.
  - eexists. split; [|shelve].
    eapply AddFlag_keeps; [eassumption|].
    eapply BindOverrideFlags_keeps; [eassumption|].
    apply Hkeep. eapply AddFlag_lookup. eassumption.
    Unshelve. reflexivity.
  - eexists; split; [eauto with flags|reflexivity].
  - intros field Hin.
    match goal with Hb : BindOverrideFlags _ _ = Some _ |- _ =>
      destruct (BindOverrideFlags_lookup _ _ _ ("kubernetes-" +:+ field)
                  field Hb)
        as (f & Hf & Hv); [by apply In_RecommendedConfigOverrideFlags|]
    end.
    exists f; split; [eauto with flags|done].
  - discriminate.
Qed.

Lemma Part000_init_spec fs g0 :
  Part000.init env = Some (fs, g0) →
  flags_ok RevPart000 env fs ∧ globals_fresh RevPart000 env g0.
Proof.
  unfold Part000.init, StringVar, AddFlagSet, MarkHidden_all. intros H.
  destruct_registration H. simpl in H.
  destruct (AddGoFlag_logLevel _ _ _) as [st|] eqn:Hgo; simpl in H;
    [|discriminate].
  apply AddGoFlag_logLevel_inv in Hgo as (Hg & Hinv & Hkeep).
  simpl in Hg, Hinv, Hkeep.
  destruct_registration H. injection H as <- <-.
  assert (∀ n x, st.1 !! n = Some x →
            (n = "config" ∧ Value_ x = stringValue ref_cfgFile)
            ∨ (n = "log-level" ∧ Value_ x = goValue_logLevel)) as Hst.
  { intros n x Hn. apply Hinv in Hn as [[-> Hv]|Hn]; [by right|].
    invert_lookup Hn; [by left|]. by rewrite lookup_empty in Hn. }
  assert (∀ n, st.1 !! ("k" +:+ n) = None) as Hk.
  { intros n. destruct (st.1 !! _) eqn:E; [|done].
    apply Hst in E as [[E _]|[E _]]; discriminate. }
  split; [|by unfold globals_fresh; rewrite Hg].
  split.
  - intros n x [Hn|[_ Hn]]%lookup_union_Some_raw.
    + apply Hst in Hn as [[-> Hv]|[-> Hv]]; unfold bound_at; by rewrite Hv.
    + rewrite lookup_fmap in Hn.
      destruct (_ !! n) as [y|] eqn:Hy; [|discriminate].
      injection Hn as <-. unfold bound_at. simpl.
      invert_lookup Hy; [done| |by rewrite lookup_empty in Hy].
      match goal with Hv : Value_ _ = _ |- _ => rewrite Hv; tauto end.
  - eexists. split; [|shelve].
    apply lookup_union_Some_raw. left.
    apply Hkeep. eapply AddFlag_lookup. eassumption.
    Unshelve. reflexivity.
  - eexists. split; [|shelve].
    apply lookup_union_Some_raw. right.
    split; [apply (Hk "ubernetes-config")|].
    rewrite lookup_fmap.
    erewrite AddFlag_lookup; [reflexivity|eassumption].
    Unshelve. reflexivity.
  - intros field Hin.
    match goal with Hb : BindOverrideFlags _ _ = Some _ |- _ =>
      destruct (BindOverrideFlags_lookup _ _ _ ("kubernetes-" +:+ field)
                  field Hb)
        as (f & Hf & Hv); [by apply In_RecommendedConfigOverrideFlags|]
    end.
    eexists. split.
    + apply lookup_union_Some_raw. right.
      split; [apply (Hk ("ubernetes-" +:+ field))|].
      rewrite lookup_fmap. erewrite AddFlag_keeps; [reflexivity|eassumption|].
      exact Hf.
    + simpl. exact Hv.
  - discriminate.
Qed.

Lemma init_spec r fs g0 :
  init r env = Some (fs, g0) → flags_ok r env fs ∧ globals_fresh r env g0.
Proof.
  destruct r; simpl.
  - apply RootGo_init_spec.
  - apply Part000_init_spec.
  - apply Part001_init_spec.
Qed.

End Init.

(** ** Parsing the command line *)

Section Parse.
Context (env : Env).

Lemma Set__runtime_state v s g g' :
  Set_ env v s g = inl g' → runtime_state g' = runtime_state g.
Proof.
  destruct v as [[| |field]| |]; simpl.
  1-3: by intros [= <-].
  - destruct (ParseBool s); [|discriminate]. by intros [= <-].
  - destruct (zapcore_Level_Set env s); [|discriminate]. by intros [= <-].
Qed.

Lemma ParseFlags_runtime_state fs args : ∀ g,
  runtime_state (ParseFlags env fs args g).1 = runtime_state g.
Proof.
  induction args as [|[name s] rest IH]; intros g; simpl; [done|].
  destruct (fs !! name) as [f|]; [|done].
  destruct (Set_ env (Value_ f) s g) as [g1|] eqn:E; [|done].
  rewrite IH. eapply Set__runtime_state, E.
Qed.

Lemma read_store p q s g :
  read p (store q s g) = if decide (p = q) then Some s else read p g.
Proof.
  destruct p as [| |f1], q as [| |f2]; simpl;
    try rewrite lookup_insert; repeat case_decide; congruence.
Qed.

Lemma read_Set_ p v s g g' :
  Set_ env v s g = inl g' →
  read p g' = if decide (v = stringValue p) then Some s else read p g.
Proof.
  destruct v as [q| |]; simpl.
  - intros [= <-]. rewrite read_store. repeat case_decide; congruence.
  - destruct (ParseBool s); [|discriminate]. intros [= <-].
    by destruct p.
  - destruct (zapcore_Level_Set env s); [|discriminate]. intros [= <-].
    by destruct p.
Qed.

(** A string variable holds what its flag was last given, or what it held
    before the parse. *)
Lemma ParseFlags_read (fs : FlagSet) p N :
  (∀ n x, fs !! n = Some x → Value_ x = stringValue p → n = N) →
  (∃ f, fs !! N = Some f ∧ Value_ f = stringValue p) →
  ∀ args g g',
    ParseFlags env fs args g = (g', None) →
    read p g' = match given N args with
                | Some v => Some v
                | None => read p g
                end.
Proof.
  intros Huniq (f0 & Hf0 & Hv0).
  induction args as [|[name s] rest IH]; intros g g'; simpl.
  - by intros [= <-].
  - destruct (fs !! name) as [f|] eqn:Hf; [|discriminate].
    destruct (Set_ env (Value_ f) s g) as [g1|] eqn:E; [|discriminate].
    intros Hp. rewrite (IH _ _ Hp).
    destruct (given N rest); [done|].
    rewrite (read_Set_ _ _ _ _ _ E).
    destruct (String.eqb_spec name N) as [->|Hne].
    + rewrite Hf0 in Hf. injection Hf as <-. by rewrite decide_True.
    + rewrite decide_False; [done|]. intros Hv. by apply Hne, (Huniq _ f).
Qed.

(** [interactive] holds what [--interactive] was last given. *)
Lemma ParseFlags_interactive (fs : FlagSet) :
  (∀ n x, fs !! n = Some x → Value_ x = boolValue_interactive →
          n = "interactive") →
  (∃ f, fs !! "interactive" = Some f ∧ Value_ f = boolValue_interactive) →
  ∀ args g g',
    ParseFlags env fs args g = (g', None) →
    match given "interactive" args with
    | Some s => ParseBool s = Some (interactive g')
    | None => interactive g' = interactive g
    end.
Proof.
  intros Huniq (f0 & Hf0 & Hv0).
  induction args as [|[name s] rest IH]; intros g g'; simpl.
  - by intros [= <-].
  - destruct (fs !! name) as [f|] eqn:Hf; [|discriminate].
    destruct (Set_ env (Value_ f) s g) as [g1|] eqn:E; [|discriminate].
    intros Hp. specialize (IH _ _ Hp).
    destruct (given "interactive" rest); [done|].
    rewrite IH. clear IH Hp.
    destruct (String.eqb_spec name "interactive") as [->|Hne].
    + rewrite Hf0 in Hf. injection Hf as <-. rewrite Hv0 in E. simpl in E.
      destruct (ParseBool s); [|discriminate]. by injection E as <-.
    + destruct (Value_ f) as [q| |] eqn:Hv; simpl in E.
      * injection E as <-. by destruct q.
      * exfalso. by apply Hne, (Huniq _ f).
      * destruct (zapcore_Level_Set env s); [|discriminate].
        by injection E as <-.
Qed.

(** A revision without the flag never sets [interactive]. *)
Lemma ParseFlags_not_interactive (fs : FlagSet) :
  (∀ n x, fs !! n = Some x → Value_ x ≠ boolValue_interactive) →
  ∀ args g g',
    ParseFlags env fs args g = (g', None) → interactive g' = interactive g.
Proof.
  intros Hno.
  induction args as [|[name s] rest IH]; intros g g'; simpl.
  - by intros [= <-].
  - destruct (fs !! name) as [f|] eqn:Hf; [|discriminate].
    destruct (Set_ env (Value_ f) s g) as [g1|] eqn:E; [|discriminate].
    intros Hp. rewrite (IH _ _ Hp).
    destruct (Value_ f) as [q| |] eqn:Hv; simpl in E.
    + injection E as <-. by destruct q.
    + by apply Hno in Hf.
    + destruct (zapcore_Level_Set env s); [|discriminate].
      by injection E as <-.
Qed.

End Parse.

(** ** The Config Resolver, function by function *)

Create HintDb go.

#[local] Hint Unfold bind ret get modify emit os_Exit panic defer
  Println_ modify_viper logger_write logger_Debug logger_Info logger_Fatal
  logger_Sync viper_ReadInConfig_call viper_ConfigFileUsed
  kubeConfig_ClientConfig kubeConfig_Namespace kubernetes_NewForConfigOrDie
  kubeClient_Pods_List : go.

Ltac go_simpl := autounfold with go; simpl.

Section Hooks.
Context (env : Env).

Lemma Enabled_FatalLevel min : zapcore.Enabled min zapcore.FatalLevel = true.
Proof. by destruct min. Qed.

Lemma RootGo_initConfig_run g :
  RootGo.initConfig env g =
  let v := resolver_settings env g in
  match viper_ReadInConfig env v with
  | inl used =>
      (Return tt, set_viperState (viper.SetConfigFile used v) g,
       [ReadInConfig v (inl used);
        Println [VString "Using config file:"; VString used]])
  | inr err => (Return tt, set_viperState v g, [ReadInConfig v (inr err)])
  end.
Proof.
  unfold RootGo.initConfig, resolver_settings; go_simpl.
  destruct (nonempty (cfgFile g)); simpl.
  - destruct (viper_ReadInConfig env _); reflexivity.
  - destruct (homedir_Dir env); simpl;
      destruct (viper_ReadInConfig env _); reflexivity.
Qed.

Lemma Part001_initConfig_run g :
  Part001.initConfig env g = RootGo.initConfig env g.
Proof. reflexivity. Qed.

Lemma Part000_initConfig_run g :
  Part000.initConfig env g =
  let v := resolver_settings env g in
  match viper_ReadInConfig env v with
  | inl used =>
      let g' := set_viperState (viper.SetConfigFile used v) g in
      match logger g with
      | None => (Panic nil_dereference, g', [ReadInConfig v (inl used)])
      | Some l =>
          (Return tt, g',
           ReadInConfig v (inl used)
           :: entry (zap.Level l) zapcore.InfoLevel "loaded config from file"
                [("file", VString used)])
      end
  | inr err => (Return tt, set_viperState v g, [ReadInConfig v (inr err)])
  end.
Proof.
  unfold Part000.initConfig, resolver_settings, entry; go_simpl.
  destruct (nonempty (cfgFile g)); simpl.
  - destruct (viper_ReadInConfig env _); simpl; [|reflexivity].
    destruct (logger g); simpl; [|reflexivity].
    by destruct (zapcore.Enabled _ _).
  - destruct (homedir_Dir env); simpl;
      (destruct (viper_ReadInConfig env _); simpl; [|reflexivity]);
      (destruct (logger g); simpl; [|reflexivity]);
      by destruct (zapcore.Enabled _ _).
Qed.

(** ** The pre-run hook, function by function *)

Lemma RootGo_PersistentPreRun_run g :
  RootGo.PersistentPreRun env g =
  let kubeConfig := kubeConfig_of RevRootGo env g in
  match clientcmd_ClientConfig env kubeConfig with
  | inr err =>
      (Exit 1, g,
       [LoadClientConfig kubeConfig (inr err); Println [VError (Some err)]])
  | inl restConfig =>
      match kubernetes_NewForConfig env restConfig with
      | inr err =>
          (Panic err, g,
           [LoadClientConfig kubeConfig (inl restConfig);
            BuildClient restConfig (inr err)])
      | inl client =>
          let ns := clientcmd_Namespace env kubeConfig in
          let answer := Pods_List env client ns.1.1 in
          (Return tt, set_kubeClient (Some client) g,
           [LoadClientConfig kubeConfig (inl restConfig);
            BuildClient restConfig (inl client);
            ResolveNamespace kubeConfig ns;
            ListPods client ns.1.1 answer;
            Println [VPods answer.1; VError answer.2]])
      end
  end.
Proof.
  unfold RootGo.PersistentPreRun, kubeConfig_of; go_simpl.
  destruct (nonempty (kubeConfigFile g)), (interactive g); simpl.
  all: destruct (clientcmd_ClientConfig env _); simpl; [|reflexivity].
  all: destruct (kubernetes_NewForConfig env _); reflexivity.
Qed.

(** The logging revisions share the hook word for word. *)
Lemma Part001_PersistentPreRun_run g :
  Part001.PersistentPreRun env g = Part000.PersistentPreRun env g.
Proof. reflexivity. Qed.

Lemma Part000_PersistentPreRun_run g :
  Part000.PersistentPreRun env g =
  let kubeConfig := kubeConfig_of RevPart000 env g in
  let min := logLevel g in
  let g1 := set_logger (Some (zap_Build min)) g in
  let specified :=
    if nonempty (kubeConfigFile g)
    then entry min zapcore.InfoLevel "using specified kube config file"
           [("file", VString (kubeConfigFile g))]
    else [] in
  match clientcmd_ClientConfig env kubeConfig with
  | inr err =>
      (Exit 1, g1,
       specified ++
       [LoadClientConfig kubeConfig (inr err);
        LogEntry zapcore.FatalLevel "failed to get REST config"
          [("error", VError (Some err))]])
  | inl restConfig =>
      match kubernetes_NewForConfig env restConfig with
      | inr err =>
          (Panic err, g1,
           specified ++
           [LoadClientConfig kubeConfig (inl restConfig);
            BuildClient restConfig (inr err);
            LoggerSync])
      | inl client =>
          let ns := clientcmd_Namespace env kubeConfig in
          let answer := Pods_List env client ns.1.1 in
          let g2 := set_kubeClient (Some client) g1 in
          let upto :=
            specified ++
            [LoadClientConfig kubeConfig (inl restConfig);
             BuildClient restConfig (inl client);
             ResolveNamespace kubeConfig ns] ++
            entry min zapcore.DebugLevel "running against namespace"
              [("namespace", VString ns.1.1)] ++
            [ListPods client ns.1.1 answer] in
          match answer.2 with
          | Some err =>
              (Exit 1, g2,
               upto ++
               [LogEntry zapcore.FatalLevel "failed to list pods"
                  [("error", VError (Some err))]])
          | None =>
              (Return tt, g2,
               upto ++
               entry min zapcore.InfoLevel "returned pods"
                 [("pods", VPods answer.1)] ++
               [LoggerSync])
          end
      end
  end.
Proof.
  unfold Part000.PersistentPreRun, kubeConfig_of, entry; go_simpl.
  destruct (nonempty (kubeConfigFile g)), (logLevel g); simpl.
  all: destruct (clientcmd_ClientConfig env _); simpl; [|reflexivity].
  all: destruct (kubernetes_NewForConfig env _); simpl; [|reflexivity].
  all: destruct (Pods_List env _ _).2; reflexivity.
Qed.

End Hooks.

(** ** A whole run *)

Section Main.
Context (env : Env).

Lemma hooks_run r g :
  hooks r env g =
  match initConfig r env g with
  | (Return _, g1, t1) =>
      match PersistentPreRun r env g1 with
      | (Return _, g2, t2) => (Return tt, g2, t1 ++ t2 ++ [RunAction])
      | (Exit c, g2, t2) => (Exit c, g2, t1 ++ t2)
      | (Panic v, g2, t2) => (Panic v, g2, t1 ++ t2)
      end
  | (Exit c, g1, t1) => (Exit c, g1, t1)
  | (Panic v, g1, t1) => (Panic v, g1, t1)
  end.
Proof.
  unfold hooks, bind, emit.
  destruct (initConfig r env g) as [[[|c|v] g1] t1]; [|done..].
  by destruct (PersistentPreRun r env g1) as [[[|c|v] g2] t2].
Qed.

Lemma rootCmd_Execute_run fs (onInitialize preRun : Go unit) args
    (k : option Error → Go unit) g0 :
  k None = ret tt →
  bind (rootCmd_Execute env fs onInitialize preRun args) k g0 =
  match ParseFlags env fs args g0 with
  | (g, Some err) => k (Some err) g
  | (g, None) => (onInitialize ;;; preRun ;;; emit RunAction) g
  end.
Proof.
  intros Hk. unfold rootCmd_Execute, bind, get, modify, ret, emit.
  destruct (ParseFlags env fs args g0) as [g [err|]]; simpl.
  - by destruct (k (Some err) g) as [[o g1] t1].
  - destruct (onInitialize g) as [[[|c|v] g1] t1]; simpl; [|done..].
    destruct (preRun g1) as [[[|c|v] g2] t2]; simpl; [|done..].
    rewrite Hk. unfold ret. by rewrite !app_nil_r.
Qed.

Lemma main_run r args :
  main r env args =
  match init r env with
  | None => (Panic "flag redefined", zero_Globals, [])
  | Some (fs, g0) =>
      match ParseFlags env fs args g0 with
      | (g, Some err) => refused r err g
      | (g, None) => hooks r env g
      end
  end.
Proof.
  unfold main, RootGo.main, Part000.main, Part001.main, process.
  destruct r; simpl init;
    match goal with |- context [match ?i with _ => _ end] =>
      destruct i as [[fs g0]|]; [|done] end;
    unfold RootGo.Execute, Part000.Execute, Part001.Execute;
    (rewrite rootCmd_Execute_run; [|done]);
    destruct (ParseFlags env fs args g0) as [g [err|]]; try done.
  unfold refused. go_simpl. by destruct (logger g) as [[[]]|].
Qed.

End Main.

(** ** The shapes a run can take *)

Section Cases.
Context (env : Env).

Lemma main_cases r args :
  (init r env = None
   ∧ main r env args = (Panic "flag redefined", zero_Globals, []))
  ∨ (∃ fs g0 g err,
       init r env = Some (fs, g0)
       ∧ ParseFlags env fs args g0 = (g, Some err)
       ∧ logger g = None
       ∧ main r env args = refused r err g)
  ∨ (∃ fs g0 g,
       init r env = Some (fs, g0)
       ∧ flags_ok r env fs
       ∧ globals_fresh r env g0
       ∧ ParseFlags env fs args g0 = (g, None)
       ∧ runtime_state g = (None, None, viper.New)
       ∧ main r env args = hooks r env g).
Proof.
  rewrite main_run.
  destruct (init r env) as [[fs g0]|] eqn:Hinit; [|by left].
  right.
  destruct (init_spec env r fs g0 Hinit) as [Hfs Hfresh].
  pose proof Hfresh as [_ Hrt].
  pose proof (ParseFlags_runtime_state env fs args g0) as Hkeep.
  rewrite Hrt in Hkeep.
  destruct (ParseFlags env fs args g0) as [g [err|]] eqn:Hparse;
    simpl in Hkeep.
  - left. exists fs, g0, g, err. repeat split; try done.
    by injection Hkeep.
  - right. by exists fs, g0, g.
Qed.

(** What the parse leaves in the variables, flag by flag. *)
Lemma parsed_cfgFile r fs args g0 g :
  flags_ok r env fs → ParseFlags env fs args g0 = (g, None) →
  cfgFile g = default (cfgFile g0) (given "config" args).
Proof.
  intros Hfs Hp.
  pose proof (ParseFlags_read env fs ref_cfgFile "config") as H.
  specialize (H (λ n x Hn Hv, ltac:(
    by pose proof (flags_bound _ _ _ Hfs n x Hn) as Hb;
       unfold bound_at in Hb; rewrite Hv in Hb))
    (flags_config _ _ _ Hfs) args g0 g Hp).
  simpl in H. destruct (given "config" args); simpl; congruence.
Qed.

Lemma parsed_kubeConfigFile r fs args g0 g :
  flags_ok r env fs → ParseFlags env fs args g0 = (g, None) →
  kubeConfigFile g
  = default (kubeConfigFile g0) (given (kubeconfig_flag r) args).
Proof.
  intros Hfs Hp.
  pose proof (ParseFlags_read env fs ref_kubeConfigFile (kubeconfig_flag r))
    as H.
  specialize (H (λ n x Hn Hv, ltac:(
    by pose proof (flags_bound _ _ _ Hfs n x Hn) as Hb;
       unfold bound_at in Hb; rewrite Hv in Hb))
    (flags_kubeconfig _ _ _ Hfs) args g0 g Hp).
  simpl in H. destruct (given _ args); simpl; congruence.
Qed.

Lemma parsed_override r fs args g0 g field :
  flags_ok r env fs → In field (clientcmd_OverrideFlagNames env) →
  ParseFlags env fs args g0 = (g, None) →
  kubeClientConfigOverrides g !! field
  = match given (prefix r +:+ field) args with
    | Some v => Some v
    | None => kubeClientConfigOverrides g0 !! field
    end.
Proof.
  intros Hfs Hin Hp.
  pose proof (ParseFlags_read env fs (ref_override field)
                (prefix r +:+ field)) as H.
  specialize (H (λ n x Hn Hv, ltac:(
    by pose proof (flags_bound _ _ _ Hfs n x Hn) as Hb;
       unfold bound_at in Hb; rewrite Hv in Hb; destruct Hb))
    (flags_override _ _ _ Hfs field Hin) args g0 g Hp).
  exact H.
Qed.

Lemma parsed_interactive fs args g0 g :
  flags_ok RevRootGo env fs → ParseFlags env fs args g0 = (g, None) →
  match given "interactive" args with
  | Some s => ParseBool s = Some (interactive g)
  | None => interactive g = interactive g0
  end.
Proof.
  intros Hfs Hp.
  apply (ParseFlags_interactive env fs); [|by apply (flags_interactive _ _ _ Hfs)|done].
  intros n x Hn Hv.
  pose proof (flags_bound _ _ _ Hfs n x Hn) as Hb.
  unfold bound_at in Hb. rewrite Hv in Hb. by destruct Hb.
Qed.

Lemma In_entry e min lvl msg fields :
  In e (entry min lvl msg fields) → e = LogEntry lvl msg fields.
Proof.
  unfold entry. destruct (zapcore.Enabled min lvl); simpl; intuition.
Qed.

Lemma steps_entry min lvl msg fields : steps (entry min lvl msg fields) = [].
Proof. unfold entry. by destruct (zapcore.Enabled min lvl). Qed.

Lemma steps_app t1 t2 : steps (t1 ++ t2) = steps t1 ++ steps t2.
Proof. apply omap_app. Qed.

End Cases.

(** Splits a goal about [main r env args] into the runs there are: the
    flag set is refused, the command line is refused, or the hooks run and
    each library call answers one way or the other. *)
Ltac run_cases r env args :=
  let Hinit := fresh "Hinit" in
  let Hparse := fresh "Hparse" in
  let Hflags := fresh "Hflags" in
  let Hfresh := fresh "Hfresh" in
  let Hrun := fresh "Hrun" in
  let Hrt := fresh "Hrt" in
  let fs := fresh "fs" in
  let g0 := fresh "g0" in
  let g := fresh "g" in
  let err := fresh "err" in
  let Hclient := fresh "Hclient" in
  let Hlogger := fresh "Hlogger" in
  let Hviper := fresh "Hviper" in
  let used := fresh "used" in
  let read_err := fresh "read_err" in
  let Hread := fresh "Hread" in
  destruct (main_cases env r args)
    as [[Hinit Hrun]
       |[(fs & g0 & g & err & Hinit & Hparse & Hrt & Hrun)
        |(fs & g0 & g & Hinit & Hflags & Hfresh & Hparse & Hrt & Hrun)]];
  rewrite Hrun in *; clear Hrun;
  [ | unfold refused in *; rewrite ?Hrt in *; destruct r
    | injection Hrt as Hclient Hlogger Hviper;
      rewrite hooks_run in *; destruct r;
      cbn [initConfig PersistentPreRun] in *;
      rewrite ?Part001_initConfig_run, ?RootGo_initConfig_run,
        ?Part000_initConfig_run in *;
      cbv zeta in *; rewrite ?Hlogger in *;
      destruct (viper_ReadInConfig env (resolver_settings env g))
        as [used|read_err] eqn:Hread;
      rewrite ?Part001_PersistentPreRun_run, ?RootGo_PersistentPreRun_run,
        ?Part000_PersistentPreRun_run in *;
      cbv zeta in *;
      change (kubeConfig_of RevRootGo env (set_viperState _ g))
        with (kubeConfig_of RevRootGo env g) in *;
      change (kubeConfig_of RevPart000 env (set_viperState _ g))
        with (kubeConfig_of RevPart000 env g) in *;
      change (kubeConfigFile (set_viperState _ g))
        with (kubeConfigFile g) in *;
      change (logLevel (set_viperState _ g)) with (logLevel g) in *;
      try
        (let cfg := fresh "restConfig" in
         let load_err := fresh "load_err" in
         let Hload := fresh "Hload" in
         destruct (clientcmd_ClientConfig env (kubeConfig_of _ env g))
           as [cfg|load_err] eqn:Hload;
         [ let client := fresh "client" in
           let build_err := fresh "build_err" in
           let Hbuild := fresh "Hbuild" in
           destruct (kubernetes_NewForConfig env cfg)
             as [client|build_err] eqn:Hbuild;
           [ let pods := fresh "pods" in
             let list_err := fresh "list_err" in
             let Hlist := fresh "Hlist" in
             destruct (Pods_List env client _)
               as [pods [list_err|]] eqn:Hlist
           | ]
         | ]) ];
  unfold status, outcome_of, globals_of, trace_of in *;
  cbn [fst snd exit_status] in *.

(** Takes apart the hypotheses that an event is in a trace. *)
Ltac in_trace :=
  repeat
    match goal with
    | H : In _ (_ ++ _) |- _ => apply in_app_or in H; destruct H as [H|H]
    | H : In _ (entry _ _ _ _) |- _ => apply In_entry in H
    | H : In _ (if ?b then _ else _) |- _ => destruct b
    | H : In _ (_ :: _) |- _ => destruct H as [H|H]
    | H : In _ [] |- _ => destruct H
    end.

(** Proves that an event written out is in a trace written out. *)
Ltac trace_has := rewrite ?in_app_iff; simpl; eauto 12.

(** ** Where the library calls of a run come from *)

Section Events.
Context (env : Env).

(** The config file of a run is read once the settings of [initConfig]
    are made, and it is the first thing the run asks of the outside. *)
Lemma read_event r args v a :
  In (ReadInConfig v a) (trace_of (main r env args)) →
  ∃ fs g0 g,
    init r env = Some (fs, g0) ∧ flags_ok r env fs ∧ globals_fresh r env g0
    ∧ ParseFlags env fs args g0 = (g, None)
    ∧ v = resolver_settings env g ∧ a = viper_ReadInConfig env v.
Proof.
  intros H. run_cases r env args.
  all: in_trace; simplify_eq.
  all: by eexists _, _, _.
Qed.

(** The loader of a run is the one built from the parsed flags. *)
Lemma loader_event r args c a :
  In (LoadClientConfig c a) (trace_of (main r env args)) →
  ∃ fs g0 g,
    init r env = Some (fs, g0) ∧ flags_ok r env fs ∧ globals_fresh r env g0
    ∧ ParseFlags env fs args g0 = (g, None)
    ∧ c = kubeConfig_of r env g ∧ a = clientcmd_ClientConfig env c.
Proof.
  intros H. run_cases r env args.
  all: in_trace; simplify_eq.
  all: by eexists _, _, _.
Qed.

(** The namespace is asked of the same loader, and the Pods list request
    for the namespace it answers follows. *)
Lemma namespace_event r args c ns :
  In (ResolveNamespace c ns) (trace_of (main r env args)) →
  (∃ fs g0 g,
     init r env = Some (fs, g0) ∧ flags_ok r env fs ∧ globals_fresh r env g0
     ∧ ParseFlags env fs args g0 = (g, None)
     ∧ c = kubeConfig_of r env g ∧ ns = clientcmd_Namespace env c)
  ∧ ∃ client,
      In (ListPods client ns.1.1 (Pods_List env client ns.1.1))
         (trace_of (main r env args)).
Proof.
  intros H. run_cases r env args.
  all: in_trace; simplify_eq.
  all: split; [by eexists _, _, _|].
  all: match goal with Hl : Pods_List env ?cl _ = _ |- _ =>
         exists cl; rewrite Hl end.
  all: trace_has.
Qed.

(** The Pods list request of a run is for the namespace the loader
    answered. *)
Lemma list_event r args client namespace a :
  In (ListPods client namespace a) (trace_of (main r env args)) →
  ∃ fs g0 g,
    init r env = Some (fs, g0) ∧ flags_ok r env fs ∧ globals_fresh r env g0
    ∧ ParseFlags env fs args g0 = (g, None)
    ∧ namespace = (clientcmd_Namespace env (kubeConfig_of r env g)).1.1
    ∧ a = Pods_List env client namespace.
Proof.
  intros H. run_cases r env args.
  all: in_trace; simplify_eq.
  all: by eexists _, _, _.
Qed.

End Events.

(** * The claims *)

(** ** C1: a failed Pods list request *)

(** In the logging revisions a failed Pods list request is logged at fatal
    level and ends the process with status 1. *)
Lemma list_failure_is_fatal_when_logging (env : Env) r args client ns pods err :
  r ≠ RevRootGo →
  In (ListPods client ns (pods, Some err)) (trace_of (main r env args)) →
  reported err (trace_of (main r env args)) ∧ status (main r env args) = 1.
Proof.
  intros Hr H. run_cases r env args.
  all: in_trace; simplify_eq.
  all: split; [|reflexivity].
  all: eexists (LogEntry _ "failed to list pods" _);
    (split; [trace_has|]); exists "error"; by left.
Qed.

(** [RootGo] prints the answer and its error in one line and goes on to
    the action: the hook returns, whatever the request answered. *)
Lemma RootGo_list_failure_returns (env : Env) args client ns pods err :
  In (ListPods client ns (pods, Some err))
     (trace_of (main RevRootGo env args)) →
  reported err (trace_of (main RevRootGo env args))
  ∧ In RunAction (trace_of (main RevRootGo env args))
  ∧ status (main RevRootGo env args) = 0.
Proof.
  remember RevRootGo as r eqn:Hr. intros H. run_cases r env args.
  all: try discriminate Hr.
  all: in_trace; simplify_eq.
  all: split; [|split; [trace_has|reflexivity]].
  all: eexists (Println [_; _]); (split; [trace_has|]); simpl; auto.
Qed.

(** C1 (the defect in src/cmd/root.go).  On the workstation with the API
    server down, [RootGo] sends the Pods list request, the request fails,
    the error is printed beside the empty list, and the process ends with
    status 0. *)
Theorem C1_root_go_list_failure_exits_zero :
  In (ListPods sample_client "default" ([], Some connection_refused))
     (trace_of (main RevRootGo unreachable_cluster []))
  ∧ In (Println [VPods []; VError (Some connection_refused)])
       (trace_of (main RevRootGo unreachable_cluster []))
  ∧ outcome_of (main RevRootGo unreachable_cluster []) = Return tt
  ∧ status (main RevRootGo unreachable_cluster []) = 0.
Proof. vm_compute. intuition. Qed.

(** ** C2: a failed credential resolution *)

(** C2.  In every run in which the Credential Loader cannot produce a
    connection configuration, the error is reported (printed by
    [RootGo], logged at fatal level by the logging revisions), the
    process exits with status 1, and neither the client is built nor a
    Pods list request sent. *)
Theorem C2_loader_failure_is_fatal (env : Env) r args c err :
  In (LoadClientConfig c (inr err)) (trace_of (main r env args)) →
  reported err (trace_of (main r env args))
  ∧ status (main r env args) = 1
  ∧ (∀ e, In e (trace_of (main r env args)) →
          step_of e ≠ Some ClientFactory ∧ step_of e ≠ Some ProbeAction).
Proof.
  intros H.
  run_cases r env args.
  all: in_trace; simplify_eq.
  all: split; [|split; [reflexivity|]].
  all: try (intros e He; in_trace; subst; by split).
  - exists (Println [VError (Some err)]). split; [trace_has|]. by left.
  - exists (Println [VError (Some err)]). split; [trace_has|]. by left.
  - eexists (LogEntry _ _ _). split; [trace_has|]. exists "error". by left.
  - eexists (LogEntry _ _ _). split; [trace_has|]. exists "error". by left.
  - eexists (LogEntry _ _ _). split; [trace_has|]. exists "error". by left.
Qed.

(** C2 on the workstation without a kubeconfig, in the logging revision
    [Part001]. *)
Lemma C2_witness :
  In (LoadClientConfig
        (kubeConfig_of RevPart001 without_kubeconfig zero_Globals)
        (inr no_configuration))
     (trace_of (main RevPart001 without_kubeconfig []))
  ∧ reported no_configuration
      (trace_of (main RevPart001 without_kubeconfig []))
  ∧ status (main RevPart001 without_kubeconfig []) = 1.
Proof.
  assert (In (LoadClientConfig
                (kubeConfig_of RevPart001 without_kubeconfig zero_Globals)
                (inr no_configuration))
             (trace_of (main RevPart001 without_kubeconfig []))) as H.
  { vm_compute. auto. }
  split; [exact H|].
  destruct (C2_loader_failure_is_fatal without_kubeconfig RevPart001 [] _ _ H)
    as (Hr & Hs & _).
  split; [exact Hr|exact Hs].
Defined.

(** ** C3: an explicit config file that is missing *)

(** The pre-run hook never reads the application config file. *)
Lemma PersistentPreRun_reads_no_config (env : Env) r g v a :
  ¬ In (ReadInConfig v a) (PersistentPreRun r env g).2.
Proof.
  intros H. destruct r; cbn [PersistentPreRun] in H;
    rewrite ?Part001_PersistentPreRun_run, ?RootGo_PersistentPreRun_run,
      ?Part000_PersistentPreRun_run in H;
    cbv zeta in H.
  all: destruct (clientcmd_ClientConfig env _);
    [destruct (kubernetes_NewForConfig env _);
     [try destruct (Pods_List env _ _).2|]|];
    cbn [snd] in H; in_trace; discriminate.
Qed.

(** C3 (as amended).  When [--config p] names a file that cannot be read,
    the Config Resolver asks viper for that file alone: no search path is
    registered, so neither the home directory nor the working directory
    is searched; the failed read is all the resolver does, nothing is
    printed or logged for it, and the run goes on with the pre-run hook,
    which does not read the config file again. *)
Theorem C3_missing_explicit_config (env : Env) r args fs g0 g p :
  init r env = Some (fs, g0) →
  ParseFlags env fs args g0 = (g, None) →
  given "config" args = Some p → p ≠ "" →
  config_file_missing env p →
  ∃ v err,
    viper.configFile v = p ∧ viper.configPaths v = []
    ∧ ¬ default_discovery env v
    ∧ viper_ReadInConfig env v = inr err
    ∧ trace_of (main r env args)
      = ReadInConfig v (inr err) :: trace_of (after_resolver r env v g)
    ∧ outcome_of (main r env args) = outcome_of (after_resolver r env v g)
    ∧ ∀ v' a, ¬ In (ReadInConfig v' a) (trace_of (after_resolver r env v g)).
Proof.
  intros Hinit Hparse Hgiven Hp Hmissing.
  destruct (init_spec env r fs g0 Hinit) as [Hfs [Hfl Hrt]].
  pose proof (parsed_cfgFile env r fs args g0 g Hfs Hparse) as Hcfg.
  rewrite Hgiven in Hcfg. simpl in Hcfg.
  pose proof (ParseFlags_runtime_state env fs args g0) as Hkeep.
  rewrite Hparse, Hrt in Hkeep. injection Hkeep as _ _ Hviper.
  assert (nonempty (cfgFile g) = true) as Hne.
  { unfold nonempty. rewrite Hcfg. by destruct (String.eqb_spec p ""). }
  set (v := resolver_settings env g).
  assert (viper.configFile v = p ∧ viper.configPaths v = []) as [Hv1 Hv2].
  { unfold v, resolver_settings. rewrite Hne, Hviper. by simpl. }
  destruct (Hmissing v Hv1) as [err Herr].
  assert (initConfig r env g
          = (Return tt, set_viperState v g, [ReadInConfig v (inr err)]))
    as Hresolver.
  { destruct r; cbn [initConfig];
      rewrite ?Part001_initConfig_run, ?RootGo_initConfig_run,
        ?Part000_initConfig_run; cbv zeta; fold v; by rewrite Herr. }
  exists v, err.
  split; [done|]. split; [done|].
  split; [intros (Hd & _); by rewrite Hv1 in Hd|].
  split; [done|].
  rewrite main_run, Hinit, Hparse, hooks_run, Hresolver.
  unfold after_resolver, bind, emit, trace_of, outcome_of.
  destruct (PersistentPreRun r env (set_viperState v g))
    as [[[[]|code|pv] g2] t2] eqn:Hrun; cbn [fst snd].
  all: rewrite ?app_nil_r; (split; [done|]); (split; [done|]).
  all: intros v' a Hin;
    apply (PersistentPreRun_reads_no_config env r (set_viperState v g) v' a);
    rewrite Hrun; cbn [snd]; try done.
  apply in_app_or in Hin as [Hin|Hin]; [done|].
  in_trace. discriminate.
Qed.

Lemma missing_yaml_named : "missing.yaml" ≠ "".
Proof. discriminate. Qed.

Lemma home_config_missing p :
  p ≠ "" → config_file_missing with_home_config p.
Proof.
  intros Hp v Hv. simpl. unfold home_config_ReadInConfig, nonempty.
  rewrite Hv. destruct (String.eqb_spec p ""); [done|]. simpl. eauto.
Qed.

Lemma with_home_config_init_ok :
  match init RevRootGo with_home_config with
  | Some _ => True
  | None => False
  end.
Proof. by vm_compute. Qed.

Lemma with_home_config_parses :
  ∃ fs g0 g,
    init RevRootGo with_home_config = Some (fs, g0)
    ∧ ParseFlags with_home_config fs [("config", "missing.yaml")] g0
      = (g, None).
Proof.
  pose proof with_home_config_init_ok as Hok.
  destruct (init RevRootGo with_home_config) as [[fs g0]|] eqn:Hinit;
    [clear Hok|done].
  destruct (init_spec _ _ _ _ Hinit) as [[_ (f & Hf & Hv) _ _ _] _].
  destruct (ParseFlags with_home_config fs [("config", "missing.yaml")] g0)
    as [g [err|]] eqn:Hparse.
  { cbn [ParseFlags] in Hparse. rewrite Hf, Hv in Hparse. discriminate. }
  exists fs, g0, g. split; [reflexivity|]. exact Hparse.
Qed.

(** C3 on the workstation whose home directory holds a config file, with
    [--config missing.yaml]. *)
Lemma C3_witness :
  ∃ fs g0 g,
    init RevRootGo with_home_config = Some (fs, g0)
    ∧ ParseFlags with_home_config fs [("config", "missing.yaml")] g0
      = (g, None)
    ∧ ∃ v err,
        viper.configFile v = "missing.yaml" ∧ viper.configPaths v = []
        ∧ ¬ default_discovery with_home_config v
        ∧ viper_ReadInConfig with_home_config v = inr err
        ∧ trace_of (main RevRootGo with_home_config
                      [("config", "missing.yaml")])
          = ReadInConfig v (inr err)
            :: trace_of (after_resolver RevRootGo with_home_config v g)
        ∧ outcome_of (main RevRootGo with_home_config
                        [("config", "missing.yaml")])
          = outcome_of (after_resolver RevRootGo with_home_config v g)
        ∧ ∀ v' a,
            ¬ In (ReadInConfig v' a)
                (trace_of (after_resolver RevRootGo with_home_config v g)).
Proof.
  destruct with_home_config_parses as (fs & g0 & g & Hinit & Hparse).
  exists fs, g0, g. split; [exact Hinit|]. split; [exact Hparse|].
  destruct (C3_missing_explicit_config with_home_config RevRootGo
              [("config", "missing.yaml")] fs g0 g "missing.yaml"
              Hinit Hparse eq_refl missing_yaml_named
              (home_config_missing _ missing_yaml_named))
    as (v & err & H1 & H2 & H3 & H4 & H5 & H6 & H7).
  exists v, err.
  split; [exact H1|]. split; [exact H2|]. split; [exact H3|].
  split; [exact H4|]. split; [exact H5|]. split; [exact H6|exact H7].
Defined.

(** C3 as stated fails: with [--config missing.yaml] on the workstation
    whose home directory holds a config file, the file is missing, default
    discovery would have found the file in the home directory, the run
    reads the explicit path with no search path registered, and no read
    of the run is a default discovery. *)
Lemma C3_counterexample :
  given "config" [("config", "missing.yaml")] = Some "missing.yaml"
  ∧ config_file_missing with_home_config "missing.yaml"
  ∧ (∃ v, default_discovery with_home_config v
          ∧ viper_ReadInConfig with_home_config v
            = inl "/home/u/.kube-client-template.yaml")
  ∧ In (ReadInConfig
          (viper.AutomaticEnv (viper.SetConfigFile "missing.yaml" viper.New))
          (inr "open missing.yaml: no such file or directory"))
       (trace_of (main RevRootGo with_home_config
                    [("config", "missing.yaml")]))
  ∧ ¬ ∃ v a,
        In (ReadInConfig v a)
           (trace_of (main RevRootGo with_home_config
                        [("config", "missing.yaml")]))
        ∧ default_discovery with_home_config v.
Proof.
  split; [reflexivity|].
  split; [by apply home_config_missing|].
  split; [|split].
  - exists (resolver_settings with_home_config zero_Globals).
    by vm_compute.
  - vm_compute. auto.
  - intros (v & a & Hin & Hd & _).
    destruct (read_event _ _ _ _ _ Hin)
      as (fs & g0 & g & Hinit & Hfs & [Hfl _] & Hparse & -> & _).
    pose proof (parsed_cfgFile _ _ _ _ _ _ Hfs Hparse) as Hcfg.
    simpl in Hcfg. unfold resolver_settings in Hd. rewrite Hcfg in Hd.
    discriminate Hd.
Qed.

(** ** C4: the loading rules when no kubeconfig path is given *)

(** C4 (as amended).  When the command line gives no kubeconfig path, the
    loader is built from the library's default loading rules, that is its
    standard discovery chain, in the logging revisions and in [RootGo]
    when the home directory cannot be determined; in [RootGo] with a home
    directory the flag defaults to [clientcmd.RecommendedHomeFile], which
    becomes the explicit path of the rules. *)
Theorem C4_rules_without_explicit_path (env : Env) r args c a :
  given (kubeconfig_flag r) args = None →
  In (LoadClientConfig c a) (trace_of (main r env args)) →
  (r ≠ RevRootGo →
   clientcmd.loader c = NewDefaultClientConfigLoadingRules env)
  ∧ (r = RevRootGo → ∀ e, homedir_Dir env = inr e →
     clientcmd.loader c = NewDefaultClientConfigLoadingRules env)
  ∧ (r = RevRootGo → ∀ home, homedir_Dir env = inl home →
     clientcmd.loader c
     = clientcmd.set_ExplicitPath (clientcmd_RecommendedHomeFile env)
         (NewDefaultClientConfigLoadingRules env)).
Proof.
  intros Hgiven Hin.
  destruct (loader_event env r args c a Hin)
    as (fs & g0 & g & Hinit & Hfs & [Hfl _] & Hparse & -> & _).
  pose proof (parsed_kubeConfigFile env r fs args g0 g Hfs Hparse) as Hk.
  rewrite Hgiven in Hk. simpl in Hk.
  assert (kubeConfigFile g = default_kubeConfigFile r env) as Hd.
  { rewrite Hk. unfold flag_state in Hfl. by injection Hfl. }
  unfold kubeConfig_of. cbn [clientcmd.loader]. rewrite Hd.
  repeat split.
  - intros Hr. by destruct r.
  - intros -> e He. simpl. by rewrite He.
  - intros -> home Hh. simpl. rewrite Hh.
    unfold nonempty.
    by destruct (String.eqb_spec (clientcmd_RecommendedHomeFile env) "")
      as [->|].
Qed.

(** C4 on the workstation, in [RootGo] with no flag at all: the rules
    carry the home file as explicit path. *)
Lemma C4_witness :
  ∃ c a,
    In (LoadClientConfig c a) (trace_of (main RevRootGo workstation []))
    ∧ clientcmd.loader c
      = clientcmd.set_ExplicitPath "/home/u/.kube/config"
          (NewDefaultClientConfigLoadingRules workstation).
Proof.
  eexists _, _.
  assert (In (LoadClientConfig (kubeConfig_of RevRootGo workstation
                                  (set_kubeConfigFile "/home/u/.kube/config"
                                     zero_Globals))
                (inl sample_restConfig))
             (trace_of (main RevRootGo workstation []))) as Hin.
  { vm_compute. auto. }
  split; [exact Hin|].
  destruct (C4_rules_without_explicit_path workstation RevRootGo [] _ _
              eq_refl Hin) as (_ & _ & Hhome).
  exact (Hhome eq_refl "/home/u" eq_refl).
Defined.

(** C4 as stated fails: [RootGo] on the workstation, with no kubeconfig
    path on the command line, builds a loader whose rules are not the
    default ones: they name the home file as explicit path. *)
Lemma C4_counterexample :
  given (kubeconfig_flag RevRootGo) [] = None
  ∧ ∃ c a,
      In (LoadClientConfig c a) (trace_of (main RevRootGo workstation []))
      ∧ clientcmd.loader c ≠ NewDefaultClientConfigLoadingRules workstation
      ∧ clientcmd.ExplicitPath (clientcmd.loader c) = "/home/u/.kube/config".
Proof.
  split; [reflexivity|].
  exists (kubeConfig_of RevRootGo workstation
            (set_kubeConfigFile "/home/u/.kube/config" zero_Globals)),
         (inl sample_restConfig).
  split; [vm_compute; auto|]. split; [|reflexivity]. discriminate.
Qed.

(** ** C5: override flags *)

(** C5.  A value given to an override flag is the value the loader holds
    for that field when the connection configuration and the namespace are
    resolved; and where the library honours the namespace override, the
    Pods list request is for the namespace given to the flag.  The flags
    are [--cluster], [--namespace], ... in [RootGo] and
    [--kubernetes-cluster], [--kubernetes-namespace], ... in the logging
    revisions. *)
Theorem C5_override_flag_reaches_loader (env : Env) r args field val :
  In field (clientcmd_OverrideFlagNames env) →
  given (prefix r +:+ field) args = Some val →
  (∀ c a, In (LoadClientConfig c a) (trace_of (main r env args)) →
          clientcmd.overrides c !! field = Some val)
  ∧ (∀ c ns, In (ResolveNamespace c ns) (trace_of (main r env args)) →
             clientcmd.overrides c !! field = Some val)
  ∧ (field = "namespace" → val ≠ "" → namespace_override_honoured env →
     ∀ client ns a,
       In (ListPods client ns a) (trace_of (main r env args)) → ns = val).
Proof.
  intros Hfield Hgiven.
  assert (∀ fs g0 g, flags_ok r env fs →
            ParseFlags env fs args g0 = (g, None) →
            clientcmd.overrides (kubeConfig_of r env g) !! field = Some val)
    as Hov.
  { intros fs g0 g Hfs Hparse. cbn [kubeConfig_of clientcmd.overrides].
    rewrite (parsed_override env r fs args g0 g field Hfs Hfield Hparse).
    by rewrite Hgiven. }
  repeat split.
  - intros c a Hin.
    destruct (loader_event env r args c a Hin)
      as (fs & g0 & g & _ & Hfs & _ & Hparse & -> & _). eauto.
  - intros c ns Hin.
    destruct (namespace_event env r args c ns Hin)
      as [(fs & g0 & g & _ & Hfs & _ & Hparse & -> & _) _]. eauto.
  - intros -> Hval Hlib client ns a Hin.
    destruct (list_event env r args client ns a Hin)
      as (fs & g0 & g & _ & Hfs & _ & Hparse & -> & _).
    apply Hlib; eauto.
Qed.

Lemma workstation_honours_namespace : namespace_override_honoured workstation.
Proof.
  intros c ns Hns Hne. simpl. unfold sample_Namespace. rewrite Hns.
  unfold nonempty. by destruct (String.eqb_spec ns "").
Qed.

(** C5 on the workstation, in [Part000] with
    [--kubernetes-namespace prod]. *)
Lemma C5_witness :
  ∃ client a,
    In (ListPods client "prod" a)
       (trace_of (main RevPart000 workstation
                    [("kubernetes-namespace", "prod")]))
    ∧ (∀ c a',
         In (LoadClientConfig c a')
            (trace_of (main RevPart000 workstation
                         [("kubernetes-namespace", "prod")])) →
         clientcmd.overrides c !! "namespace" = Some "prod").
Proof.
  destruct (C5_override_flag_reaches_loader workstation RevPart000
              [("kubernetes-namespace", "prod")] "namespace" "prod")
    as (Hload & _ & _).
  - simpl. auto.
  - reflexivity.
  - exists sample_client, (["pod-a"; "pod-b"], None).
    split; [vm_compute; auto 10|exact Hload].
Defined.

(** ** C6: the order of the steps *)

Lemma steps_specified (b : bool) min lvl msg fields :
  steps (if b then entry min lvl msg fields else []) = [].
Proof. destruct b; [apply steps_entry|done]. Qed.

Ltac steps_simpl :=
  repeat first [ rewrite steps_app | rewrite steps_entry
               | rewrite steps_specified ];
  cbn [steps omap step_of app list_omap].

(** C6 (as amended).  In every run the steps taken are an initial segment
    of: Config Resolver, Credential Loader, Client Factory, Probe Action,
    command action; so each runs at most once and none out of order.  A
    run whose hooks return has taken all of them; a resolved connection
    configuration is followed by the Client Factory, and a built client by
    the Probe Action. *)
Theorem C6_steps_in_order (env : Env) r args :
  steps (trace_of (main r env args)) `prefix_of` pipeline
  ∧ (outcome_of (main r env args) = Return tt →
     steps (trace_of (main r env args)) = pipeline)
  ∧ (∀ c cfg,
       In (LoadClientConfig c (inl cfg)) (trace_of (main r env args)) →
       In ClientFactory (steps (trace_of (main r env args))))
  ∧ (∀ cfg client,
       In (BuildClient cfg (inl client)) (trace_of (main r env args)) →
       In ProbeAction (steps (trace_of (main r env args)))).
Proof.
  run_cases r env args.
  all: steps_simpl.
  all: split; [by eexists|].
  all: split; [try done|].
  all: split; intros ? ? Hin; in_trace; simplify_eq; simpl; auto 6.
Qed.

(** C6 on the workstation: the hooks return and all the steps ran, in
    order. *)
Lemma C6_witness :
  outcome_of (main RevPart001 workstation []) = Return tt
  ∧ steps (trace_of (main RevPart001 workstation [])) = pipeline.
Proof.
  assert (outcome_of (main RevPart001 workstation []) = Return tt) as H
    by (vm_compute; reflexivity).
  split; [exact H|].
  exact (proj1 (proj2 (C6_steps_in_order workstation RevPart001 [])) H).
Defined.

(** C6 as stated fails: without a kubeconfig the run stops at the
    Credential Loader; the Client Factory, the Probe Action and the action
    never run. *)
Lemma C6_counterexample :
  steps (trace_of (main RevRootGo without_kubeconfig []))
  = [ConfigResolver; CredentialLoader]
  ∧ steps (trace_of (main RevRootGo without_kubeconfig [])) ≠ pipeline.
Proof.
  assert (steps (trace_of (main RevRootGo without_kubeconfig []))
          = [ConfigResolver; CredentialLoader]) as ->
    by (vm_compute; reflexivity).
  split; [reflexivity|discriminate].
Qed.

(** ** C7: the message for the config file in use *)

(** [RootGo] and [Part001] print the message, naming the file, as the next
    thing after the read. *)
Lemma config_message_printed (env : Env) r args v used :
  r ≠ RevPart000 →
  In (ReadInConfig v (inl used)) (trace_of (main r env args)) →
  In (Println [VString "Using config file:"; VString used])
     (trace_of (main r env args)).
Proof.
  intros Hr H. run_cases r env args.
  all: try done.
  all: in_trace; simplify_eq.
  all: trace_has.
Qed.

(** [Part000] calls [logger.Info] while [logger] is still nil: whenever a
    config file is read, the process panics and no message is written. *)
Lemma Part000_config_message_panics (env : Env) args v used :
  In (ReadInConfig v (inl used)) (trace_of (main RevPart000 env args)) →
  outcome_of (main RevPart000 env args) = Panic nil_dereference
  ∧ trace_of (main RevPart000 env args) = [ReadInConfig v (inl used)].
Proof.
  remember RevPart000 as r eqn:Hr. intros H. run_cases r env args.
  all: try discriminate Hr.
  all: in_trace; simplify_eq.
  done.
Qed.

(** C7 (the defect in src/unnamed/part_000).  On the workstation whose
    home directory holds [.kube-client-template.yaml], [Part000] finds the
    file, then panics on the nil logger: the trace ends at the read, no
    message is written, and the process ends with status 2.  [Part001]
    prints the message in the same situation and goes on. *)
Theorem C7_part000_config_message_crashes :
  outcome_of (main RevPart000 with_home_config [])
  = Panic nil_dereference
  ∧ steps (trace_of (main RevPart000 with_home_config [])) = [ConfigResolver]
  ∧ length (trace_of (main RevPart000 with_home_config [])) = 1%nat
  ∧ status (main RevPart000 with_home_config []) = 2
  ∧ In (Println [VString "Using config file:";
                 VString "/home/u/.kube-client-template.yaml"])
       (trace_of (main RevPart001 with_home_config []))
  ∧ status (main RevPart001 with_home_config []) = 0.
Proof. vm_compute. intuition. Qed.

(** ** C8: the interactive loader *)

(** The logging revisions have no [--interactive]: their loader never
    reads from standard input. *)
Lemma logging_loader_not_interactive (env : Env) r args c a :
  r ≠ RevRootGo →
  In (LoadClientConfig c a) (trace_of (main r env args)) →
  clientcmd.fallbackReader c = None.
Proof.
  intros Hr Hin.
  destruct (loader_event env r args c a Hin)
    as (fs & g0 & g & _ & _ & _ & _ & -> & _).
  by destruct r.
Qed.

(** C8.  In [RootGo] the connection configuration is resolved by the
    loader the flag selects: with [--interactive] given a true value, the
    interactive loader reading from standard input, whose answer decides
    the run; with a false value, or no [--interactive] at all, the
    non-interactive loader. *)
Theorem C8_interactive_selects_loader (env : Env) args c a :
  In (LoadClientConfig c a) (trace_of (main RevRootGo env args)) →
  a = clientcmd_ClientConfig env c
  ∧ match given "interactive" args with
    | Some s =>
        ∃ b, ParseBool s = Some b
             ∧ clientcmd.fallbackReader c
               = if b then Some os_Stdin else None
    | None => clientcmd.fallbackReader c = None
    end.
Proof.
  intros Hin.
  destruct (loader_event env RevRootGo args c a Hin)
    as (fs & g0 & g & _ & Hfs & [Hfl _] & Hparse & -> & ->).
  split; [reflexivity|].
  pose proof (parsed_interactive env fs args g0 g Hfs Hparse) as Hi.
  cbn [kubeConfig_of clientcmd.fallbackReader].
  destruct (given "interactive" args) as [s|].
  - by exists (interactive g).
  - rewrite Hi. unfold flag_state in Hfl. injection Hfl as _ -> _ _ _.
    reflexivity.
Qed.

(** C8 on the workstation with [--interactive]. *)
Lemma C8_witness :
  ∃ c a,
    In (LoadClientConfig c a)
       (trace_of (main RevRootGo workstation [("interactive", "true")]))
    ∧ clientcmd.fallbackReader c = Some os_Stdin.
Proof.
  exists (kubeConfig_of RevRootGo workstation
            (set_interactive true
               (set_kubeConfigFile "/home/u/.kube/config" zero_Globals))),
         (inl sample_restConfig).
  assert (In (LoadClientConfig
                (kubeConfig_of RevRootGo workstation
                   (set_interactive true
                      (set_kubeConfigFile "/home/u/.kube/config"
                         zero_Globals)))
                (inl sample_restConfig))
             (trace_of (main RevRootGo workstation
                          [("interactive", "true")]))) as Hin.
  { vm_compute. auto. }
  split; [exact Hin|].
  destruct (C8_interactive_selects_loader workstation
              [("interactive", "true")] _ _ Hin) as [_ (b & Hb & Hr)].
  reflexivity.
Defined.

(** ** C9: resolution is a function of the flags and the kubeconfig *)

Section SameFlags.
Context (env1 env2 : Env).
Hypothesis Hhome : homedir_Dir env1 = homedir_Dir env2.
Hypothesis Hfile :
  clientcmd_RecommendedHomeFile env1 = clientcmd_RecommendedHomeFile env2.
Hypothesis Hnames :
  clientcmd_OverrideFlagNames env1 = clientcmd_OverrideFlagNames env2.
Hypothesis Hlevels : ∀ s, zapcore_Level_Set env1 s = zapcore_Level_Set env2 s.

Lemma init_same r : init r env1 = init r env2.
Proof.
  destruct r; unfold init, RootGo.init, Part000.init, Part001.init,
    RecommendedConfigOverrideFlags; by rewrite ?Hhome, ?Hfile, ?Hnames.
Qed.

Lemma ParseFlags_same fs args : ∀ g,
  ParseFlags env1 fs args g = ParseFlags env2 fs args g.
Proof.
  induction args as [|[name s] rest IH]; intros g; simpl; [done|].
  destruct (fs !! name) as [f|]; [|done].
  assert (Set_ env1 (Value_ f) s g = Set_ env2 (Value_ f) s g) as ->.
  { destruct (Value_ f); simpl; by rewrite ?Hlevels. }
  destruct (Set_ env2 (Value_ f) s g); [apply IH|done].
Qed.

End SameFlags.

(** The hooks leave the Invocation Flags as the parse set them. *)
Lemma hooks_keep_flags (env : Env) r g :
  flag_state (globals_of (hooks r env g)) = flag_state g.
Proof.
  rewrite hooks_run. destruct r; cbn [initConfig PersistentPreRun];
    rewrite ?Part001_initConfig_run, ?RootGo_initConfig_run,
      ?Part000_initConfig_run; cbv zeta.
  all: destruct (viper_ReadInConfig env (resolver_settings env g));
    try destruct (logger g); try reflexivity.
  all: rewrite ?Part001_PersistentPreRun_run, ?RootGo_PersistentPreRun_run,
      ?Part000_PersistentPreRun_run; cbv zeta.
  all: destruct (clientcmd_ClientConfig env _);
    [destruct (kubernetes_NewForConfig env _);
     [try destruct (Pods_List env _ _).2|]|];
    reflexivity.
Qed.

(** C9.  Two runs with the same command line, in environments where the
    flags parse alike and the kubeconfig libraries answer alike, build the
    same loader and get the same connection configuration and the same
    namespace from it, whatever the application config file, the client
    construction and the API server do; and a run ends with the Invocation
    Flags as the parse set them. *)
Theorem C9_resolution_is_determined (env1 env2 : Env) r args :
  same_kubeconfig env1 env2 →
  (∀ c1 a1 c2 a2,
     In (LoadClientConfig c1 a1) (trace_of (main r env1 args)) →
     In (LoadClientConfig c2 a2) (trace_of (main r env2 args)) →
     c1 = c2 ∧ a1 = a2)
  ∧ (∀ c1 n1 c2 n2,
       In (ResolveNamespace c1 n1) (trace_of (main r env1 args)) →
       In (ResolveNamespace c2 n2) (trace_of (main r env2 args)) →
       c1 = c2 ∧ n1 = n2)
  ∧ (∀ fs g0,
       init r env1 = Some (fs, g0) →
       flag_state (globals_of (main r env1 args))
       = flag_state (ParseFlags env1 fs args g0).1).
Proof.
  intros [Hhome Hfile Hnames Hprec Hlevels Hcc Hns].
  assert (∀ g, kubeConfig_of r env1 g = kubeConfig_of r env2 g) as Hk.
  { intros g. unfold kubeConfig_of, NewDefaultClientConfigLoadingRules.
    by rewrite Hprec. }
  assert (∀ fs1 g01 g1 fs2 g02 g2,
            init r env1 = Some (fs1, g01) →
            ParseFlags env1 fs1 args g01 = (g1, None) →
            init r env2 = Some (fs2, g02) →
            ParseFlags env2 fs2 args g02 = (g2, None) → g1 = g2) as Hg.
  { intros fs1 g01 g1 fs2 g02 g2 Hi1 Hp1 Hi2 Hp2.
    rewrite (init_same env1 env2 Hhome Hfile Hnames r), Hi2 in Hi1.
    injection Hi1 as <- <-.
    rewrite (ParseFlags_same env1 env2 Hlevels), Hp2 in Hp1.
    by injection Hp1. }
  split; [|split].
  - intros c1 a1 c2 a2 H1 H2.
    destruct (loader_event env1 r args c1 a1 H1)
      as (fs1 & g01 & g1 & Hi1 & _ & _ & Hp1 & -> & ->).
    destruct (loader_event env2 r args c2 a2 H2)
      as (fs2 & g02 & g2 & Hi2 & _ & _ & Hp2 & -> & ->).
    rewrite (Hg _ _ _ _ _ _ Hi1 Hp1 Hi2 Hp2), Hk. split; [done|apply Hcc].
  - intros c1 n1 c2 n2 H1 H2.
    destruct (namespace_event env1 r args c1 n1 H1)
      as [(fs1 & g01 & g1 & Hi1 & _ & _ & Hp1 & -> & ->) _].
    destruct (namespace_event env2 r args c2 n2 H2)
      as [(fs2 & g02 & g2 & Hi2 & _ & _ & Hp2 & -> & ->) _].
    rewrite (Hg _ _ _ _ _ _ Hi1 Hp1 Hi2 Hp2), Hk. split; [done|apply Hns].
  - intros fs g0 Hi. rewrite main_run, Hi.
    destruct (ParseFlags env1 fs args g0) as [g [err|]]; cbn [fst].
    + unfold refused. destruct r; try destruct (logger g); reflexivity.
    + apply hooks_keep_flags.
Qed.

Lemma workstation_same_kubeconfig : same_kubeconfig workstation with_home_config.
Proof. by split. Qed.

(** C9 on the workstation, without and with an application config file in
    the home directory: both runs resolve the same configuration. *)
Lemma C9_witness :
  ∃ c a,
    In (LoadClientConfig c a)
       (trace_of (main RevPart001 workstation
                    [("kubernetes-namespace", "prod")]))
    ∧ In (LoadClientConfig c a)
         (trace_of (main RevPart001 with_home_config
                      [("kubernetes-namespace", "prod")])).
Proof.
  assert (∃ c1 a1 c2 a2,
            In (LoadClientConfig c1 a1)
               (trace_of (main RevPart001 workstation
                            [("kubernetes-namespace", "prod")]))
            ∧ In (LoadClientConfig c2 a2)
                 (trace_of (main RevPart001 with_home_config
                              [("kubernetes-namespace", "prod")])))
    as (c1 & a1 & c2 & a2 & H1 & H2).
  { eexists _, _, _, _. split; vm_compute; auto. }
  destruct (C9_resolution_is_determined workstation with_home_config
              RevPart001 [("kubernetes-namespace", "prod")]
              workstation_same_kubeconfig) as (Hload & _ & _).
  destruct (Hload c1 a1 c2 a2 H1 H2) as [-> ->].
  by exists c2, a2.
Defined.

(** ** C10: the error of the namespace resolution *)

Lemma ParseFlags_without_namespace_error (env : Env) fs args : ∀ g,
  ParseFlags (without_namespace_error env) fs args g
  = ParseFlags env fs args g.
Proof. by apply ParseFlags_same. Qed.

Lemma init_without_namespace_error (env : Env) r :
  init r (without_namespace_error env) = init r env.
Proof. by apply init_same. Qed.

Lemma map_forget_entry min lvl msg fields :
  map forget_namespace_error (entry min lvl msg fields)
  = entry min lvl msg fields.
Proof. unfold entry. by destruct (zapcore.Enabled min lvl). Qed.

Lemma hooks_without_namespace_error (env : Env) r g :
  outcome_of (hooks r (without_namespace_error env) g)
  = outcome_of (hooks r env g)
  ∧ trace_of (hooks r (without_namespace_error env) g)
    = map forget_namespace_error (trace_of (hooks r env g)).
Proof.
  rewrite !hooks_run. destruct r; cbn [initConfig PersistentPreRun];
    rewrite ?Part001_initConfig_run, ?RootGo_initConfig_run,
      ?Part000_initConfig_run; cbv zeta.
  all: change (resolver_settings (without_namespace_error env) g)
         with (resolver_settings env g).
  all: change (viper_ReadInConfig (without_namespace_error env))
         with (viper_ReadInConfig env).
  all: destruct (viper_ReadInConfig env (resolver_settings env g));
    try destruct (logger g) as [l|]; try (split; reflexivity).
  all: rewrite ?Part001_PersistentPreRun_run, ?RootGo_PersistentPreRun_run,
      ?Part000_PersistentPreRun_run; cbv zeta.
  all: unfold kubeConfig_of, NewDefaultClientConfigLoadingRules;
    cbn [without_namespace_error clientcmd_ClientConfig clientcmd_Namespace
         kubernetes_NewForConfig Pods_List clientcmd_DefaultPrecedence
         kubeConfigFile kubeClientConfigOverrides interactive logLevel
         set_viperState fst snd].
  all: destruct (clientcmd_ClientConfig env _);
    [destruct (kubernetes_NewForConfig env _);
     [try destruct (Pods_List env _ _).2|]|].
  all: unfold outcome_of, trace_of; cbn [fst snd].
  all: rewrite ?map_app, ?map_forget_entry; cbn [map forget_namespace_error].
  all: try (split; reflexivity).
  all: destruct (nonempty (kubeConfigFile g));
    rewrite ?map_forget_entry; split; reflexivity.
Qed.

(** C10.  Whenever a run resolves the namespace, the Pods list request is
    sent for the namespace string of the answer, whatever its error; and
    the error has no bearing on the run: with the error taken out of the
    library's answer, the run ends the same way and its trace is the same
    apart from that error. *)
Theorem C10_namespace_error_discarded (env : Env) r args :
  (∀ c ns,
     In (ResolveNamespace c ns) (trace_of (main r env args)) →
     ∃ client,
       In (ListPods client ns.1.1 (Pods_List env client ns.1.1))
          (trace_of (main r env args)))
  ∧ outcome_of (main r (without_namespace_error env) args)
    = outcome_of (main r env args)
  ∧ trace_of (main r (without_namespace_error env) args)
    = map forget_namespace_error (trace_of (main r env args)).
Proof.
  split.
  { intros c ns Hin. by destruct (namespace_event env r args c ns Hin). }
  rewrite !main_run, init_without_namespace_error.
  destruct (init r env) as [[fs g0]|]; [|by split].
  rewrite ParseFlags_without_namespace_error.
  destruct (ParseFlags env fs args g0) as [g [err|]].
  - unfold refused. destruct r; try destruct (logger g); by split.
  - apply hooks_without_namespace_error.
Qed.

(** C10 on the workstation whose namespace resolution fails with the empty
    namespace: the request is sent for the empty namespace and the hooks
    return. *)
Lemma C10_witness :
  In (ResolveNamespace
        (kubeConfig_of RevPart001 namespace_unresolved zero_Globals)
        ("", false, Some "context was not found"))
     (trace_of (main RevPart001 namespace_unresolved []))
  ∧ (∃ client,
       In (ListPods client "" (["pod-a"; "pod-b"], None))
          (trace_of (main RevPart001 namespace_unresolved [])))
  ∧ status (main RevPart001 namespace_unresolved []) = 0.
Proof.
  assert (In (ResolveNamespace
                (kubeConfig_of RevPart001 namespace_unresolved zero_Globals)
                ("", false, Some "context was not found"))
             (trace_of (main RevPart001 namespace_unresolved []))) as Hin
    by (vm_compute; auto 10).
  split; [exact Hin|]. split; [|by vm_compute].
  exact (proj1 (C10_namespace_error_discarded namespace_unresolved
                  RevPart001 []) _ _ Hin).
Defined.

(** * Further properties of the code *)

(** ** Command lines that are refused *)

Section Refusal.
Context (env : Env).

(** The name and the variable of a flag of the set, case by case. *)
Lemma bound_at_inv r name f :
  bound_at r env name f →
  (name = "config" ∧ Value_ f = stringValue ref_cfgFile)
  ∨ (name = kubeconfig_flag r ∧ Value_ f = stringValue ref_kubeConfigFile)
  ∨ (∃ field, name = prefix r +:+ field
              ∧ In field (clientcmd_OverrideFlagNames env)
              ∧ Value_ f = stringValue (ref_override field))
  ∨ (name = "interactive" ∧ r = RevRootGo
     ∧ Value_ f = boolValue_interactive)
  ∨ (name = "log-level" ∧ r ≠ RevRootGo ∧ Value_ f = goValue_logLevel).
Proof.
  unfold bound_at. destruct (Value_ f) as [[| |field]| |]; intros H.
  - by left.
  - right. by left.
  - right. right. left. exists field. by destruct H.
  - right. right. right. left. by destruct H.
  - right. right. right. right. by destruct H.
Qed.

Lemma ParseFlags_accepted (fs : FlagSet) args : ∀ g g',
  ParseFlags env fs args g = (g', None) →
  ∀ name s, In (name, s) args →
    ∃ f, fs !! name = Some f ∧ accepts env (Value_ f) s = true.
Proof.
  induction args as [|[n0 s0] rest IH]; intros g g'; simpl; [by intros _ ? ? []|].
  destruct (fs !! n0) as [f|] eqn:Hf; [|discriminate].
  destruct (Set_ env (Value_ f) s0 g) as [g1|] eqn:E; [|discriminate].
  intros Hp name s [[= -> ->]|Hin]; [|by eapply IH].
  exists f. split; [done|].
  destruct (Value_ f) as [p| |]; simpl in *; [done| |].
  - by destruct (ParseBool s).
  - by destruct (zapcore_Level_Set env s).
Qed.

(** A run whose command line is not accepted takes no step and fails. *)
Lemma unaccepted_run r args :
  (∀ fs g0 g, init r env = Some (fs, g0) →
              ParseFlags env fs args g0 ≠ (g, None)) →
  steps (trace_of (main r env args)) = []
  ∧ status (main r env args) ≠ 0.
Proof.
  intros Hno. run_cases r env args.
  all: try by (exfalso; eapply Hno).
  all: by split.
Qed.

End Refusal.

(** X1.  When cobra refuses the command line, no hook runs.  [RootGo] and
    [Part001] print the error and exit with status 1.  [Part000] hands
    the error to [logger.Fatal] while [logger] is still nil: it panics
    and nothing is written. *)
Theorem X1_refused_command_line (env : Env) r args fs g0 g err :
  init r env = Some (fs, g0) →
  ParseFlags env fs args g0 = (g, Some err) →
  main r env args
  = match r with
    | RevRootGo | RevPart001 => (Exit 1, g, [Println [VError (Some err)]])
    | RevPart000 => (Panic nil_dereference, g, [])
    end.
Proof.
  intros Hinit Hparse. rewrite main_run, Hinit, Hparse. unfold refused.
  destruct (init_spec env r fs g0 Hinit) as [_ [_ Hrt]].
  pose proof (ParseFlags_runtime_state env fs args g0) as Hkeep.
  rewrite Hparse, Hrt in Hkeep. injection Hkeep as _ Hlogger _.
  rewrite Hlogger. by destruct r.
Qed.

Lemma workstation_refuses_bogus r :
  ∃ fs g0,
    init r workstation = Some (fs, g0)
    ∧ ParseFlags workstation fs [("bogus", "1")] g0
      = (g0, Some "unknown flag: --bogus").
Proof.
  assert (match init r workstation with Some _ => True | None => False end)
    as Hok by (destruct r; by vm_compute).
  destruct (init r workstation) as [[fs g0]|] eqn:Hinit; [|done].
  exists fs, g0. split; [done|].
  destruct (init_spec _ _ _ _ Hinit) as [[Hb _ _ _ _] _].
  cbn [ParseFlags]. destruct (fs !! "bogus") as [x|] eqn:Hx; [|done].
  apply Hb, bound_at_inv in Hx.
  destruct Hx as [[[=] _]|[[Hx _]|[(field & Hx & Hin & _)|[[[=] _]|[[=] _]]]]];
    destruct r; try discriminate Hx.
  change ("bogus" = field) in Hx. subst field. cbn in Hin.
  intuition discriminate.
Qed.

(** X1 on the workstation with [--bogus], in [Part000]. *)
Lemma X1_witness :
  ∃ g,
    main RevPart000 workstation [("bogus", "1")]
    = (Panic nil_dereference, g, []).
Proof.
  destruct (workstation_refuses_bogus RevPart000) as (fs & g0 & Hi & Hp).
  exists g0.
  exact (X1_refused_command_line workstation RevPart000 _ fs g0 g0 _ Hi Hp).
Defined.

(** X2.  The logging revisions define no [--interactive]: a command line
    that gives it is refused, so the run takes no step and fails. *)
Theorem X2_logging_revisions_refuse_interactive (env : Env) r args s :
  r ≠ RevRootGo →
  In ("interactive", s) args →
  steps (trace_of (main r env args)) = []
  ∧ status (main r env args) ≠ 0.
Proof.
  intros Hr Hin. apply unaccepted_run. intros fs g0 g Hinit Hparse.
  destruct (ParseFlags_accepted env fs args g0 g Hparse _ _ Hin)
    as (f & Hf & _).
  destruct (init_spec env r fs g0 Hinit) as [[Hb _ _ _ _] _].
  apply Hb, bound_at_inv in Hf.
  destruct Hf as [[[=] _]|[[Hf _]|[(field & Hf & _)|[(_ & Hf & _)|[[=] _]]]]];
    destruct r; done.
Qed.

(** X2 in [Part001] on the workstation. *)
Lemma X2_witness :
  steps (trace_of (main RevPart001 workstation [("interactive", "true")]))
  = []
  ∧ status (main RevPart001 workstation [("interactive", "true")]) ≠ 0.
Proof.
  apply (X2_logging_revisions_refuse_interactive workstation RevPart001
           [("interactive", "true")] "true"); [discriminate|by left].
Defined.

(** X3.  A value its flag cannot take ends the run before any step: a
    value [strconv.ParseBool] refuses for [--interactive] in [RootGo], a
    level [zapcore] refuses for [--log-level] in the logging revisions. *)
Theorem X3_refused_flag_value (env : Env) r args s :
  (r = RevRootGo ∧ In ("interactive", s) args ∧ ParseBool s = None)
  ∨ (r ≠ RevRootGo ∧ In ("log-level", s) args
     ∧ ∃ err, zapcore_Level_Set env s = inr err) →
  steps (trace_of (main r env args)) = []
  ∧ status (main r env args) ≠ 0.
Proof.
  intros Hcase. apply unaccepted_run. intros fs g0 g Hinit Hparse.
  destruct (init_spec env r fs g0 Hinit) as [[Hb _ _ _ Hi] _].
  destruct Hcase as [(-> & Hin & Hbool)|(Hr & Hin & err & Hlevel)].
  - destruct (ParseFlags_accepted env fs args g0 g Hparse _ _ Hin)
      as (f & Hf & Hacc).
    destruct (Hi eq_refl) as (f0 & Hf0 & Hv0).
    rewrite Hf0 in Hf. injection Hf as <-.
    rewrite Hv0 in Hacc. simpl in Hacc. by rewrite Hbool in Hacc.
  - destruct (ParseFlags_accepted env fs args g0 g Hparse _ _ Hin)
      as (f & Hf & Hacc).
    apply Hb, bound_at_inv in Hf.
    destruct Hf
      as [[[=] _]|[[Hf _]|[(field & Hf & _)|[(_ & Hf & _)|(_ & _ & Hv)]]]].
    1-3: by destruct r.
    rewrite Hv in Hacc. simpl in Hacc. by rewrite Hlevel in Hacc.
Qed.

(** X3 in [RootGo] on the workstation with [--interactive=maybe]. *)
Lemma X3_witness :
  steps (trace_of (main RevRootGo workstation [("interactive", "maybe")]))
  = []
  ∧ status (main RevRootGo workstation [("interactive", "maybe")]) ≠ 0.
Proof.
  apply (X3_refused_flag_value workstation RevRootGo
           [("interactive", "maybe")] "maybe").
  left. split; [done|]. split; [by left|reflexivity].
Defined.

(** ** When [init] registers its flags *)

Section Registration.
Context (env : Env).

Lemma AddFlag_Some name f (fs : FlagSet) :
  fs !! name = None → AddFlag name f fs = Some (<[name := f]> fs).
Proof. unfold AddFlag. by intros ->. Qed.

Lemma AddFlag_free name f (fs fs' : FlagSet) :
  AddFlag name f fs = Some fs' → fs !! name = None.
Proof. unfold AddFlag. by destruct (fs !! name). Qed.

Lemma BindOverrideFlags_Some names : ∀ fs : FlagSet,
  NoDup (map fst names) →
  (∀ n, In n (map fst names) → fs !! n = None) →
  is_Some (BindOverrideFlags names fs).
Proof.
  induction names as [|[name field] rest IH]; intros fs Hnd Hfree; simpl.
  { by eexists. }
  simpl in Hnd. apply NoDup_cons in Hnd as [Hname Hnd].
  rewrite AddFlag_Some; [|apply Hfree; by left]. simpl.
  apply IH; [done|]. intros n Hn.
  rewrite lookup_insert_ne.
  - apply Hfree. by right.
  - intros ->. apply Hname. by apply list_elem_of_In.
Qed.

Lemma BindOverrideFlags_free names : ∀ fs fs' : FlagSet,
  BindOverrideFlags names fs = Some fs' →
  NoDup (map fst names) ∧ ∀ n, In n (map fst names) → fs !! n = None.
Proof.
  induction names as [|[name field] rest IH]; intros fs fs'; simpl.
  { intros _. split; [constructor|by intros ? []]. }
  destruct (AddFlag name _ fs) as [fs1|] eqn:E; simpl; [|discriminate].
  intros Hb. destruct (IH _ _ Hb) as [Hnd Hfree].
  pose proof (AddFlag_free _ _ _ _ E) as Hname.
  unfold AddFlag in E. rewrite Hname in E. injection E as <-.
  split.
  - apply NoDup_cons. split; [|done].
    intros Hin%list_elem_of_In. apply Hfree in Hin.
    by rewrite lookup_insert_eq in Hin.
  - intros n [<-|Hn]; [done|].
    specialize (Hfree n Hn). rewrite lookup_insert in Hfree.
    by case_decide.
Qed.

Lemma override_flag_names p :
  map fst (RecommendedConfigOverrideFlags env p)
  = map (String.append p) (clientcmd_OverrideFlagNames env).
Proof.
  unfold RecommendedConfigOverrideFlags.
  induction (clientcmd_OverrideFlagNames env); simpl; congruence.
Qed.

Lemma NoDup_prefixed p (l : list string) :
  NoDup (map (String.append p) l) ↔ NoDup l.
Proof.
  induction l as [|x l IH]; simpl; [split; constructor|].
  rewrite !NoDup_cons, IH, !list_elem_of_In, in_map_iff.
  split; intros [Hx Hl]; (split; [|done]).
  - intros Hin. apply Hx. eauto.
  - intros (y & Hy & Hin). apply (inj (String.append p)) in Hy. by subst.
Qed.

Lemma In_prefixed p n (l : list string) :
  In (p +:+ n) (map (String.append p) l) ↔ In n l.
Proof.
  rewrite in_map_iff. split; [|by eauto].
  intros (y & Hy & Hin). apply (inj (String.append p)) in Hy. by subst.
Qed.

End Registration.

Section InitSucceeds.
Context (env : Env).

Lemma override_flags_bound p (fs fs' : FlagSet) :
  BindOverrideFlags (RecommendedConfigOverrideFlags env p) fs = Some fs' →
  NoDup (clientcmd_OverrideFlagNames env)
  ∧ ∀ n, In n (clientcmd_OverrideFlagNames env) →
         fs !! (p +:+ n) = None ∧ is_Some (fs' !! (p +:+ n)).
Proof.
  intros Hb. destruct (BindOverrideFlags_free _ _ _ Hb) as [Hnd Hfree].
  rewrite override_flag_names in Hnd, Hfree.
  split; [by apply NoDup_prefixed in Hnd|]. intros n Hn. split.
  - apply Hfree. by apply In_prefixed.
  - destruct (BindOverrideFlags_lookup _ _ _ (p +:+ n) n Hb) as (f & Hf & _).
    + by apply In_RecommendedConfigOverrideFlags.
    + by eexists.
Qed.

Lemma override_flags_bind p (fs : FlagSet) :
  NoDup (clientcmd_OverrideFlagNames env) →
  (∀ n, In n (clientcmd_OverrideFlagNames env) → fs !! (p +:+ n) = None) →
  ∃ fs', BindOverrideFlags (RecommendedConfigOverrideFlags env p) fs = Some fs'
         ∧ ∀ name, fs !! name = None →
             (∀ n, In n (clientcmd_OverrideFlagNames env) → name ≠ p +:+ n) →
             fs' !! name = None.
Proof.
  intros Hnd Hfree.
  destruct (BindOverrideFlags_Some (RecommendedConfigOverrideFlags env p) fs)
    as [fs' Hb].
  { rewrite override_flag_names. by apply NoDup_prefixed. }
  { rewrite override_flag_names. intros n (y & <- & Hy)%in_map_iff. auto. }
  exists fs'. split; [done|]. intros name Hname Hne.
  destruct (fs' !! name) as [x|] eqn:Hx; [exfalso|done].
  apply (BindOverrideFlags_inv _ _ _ _ _ Hb) in Hx
    as [(field & [Hf Hin]%In_RecommendedConfigOverrideFlags & _)|Hx].
  - by apply (Hne field).
  - congruence.
Qed.

Lemma RootGo_init_fit :
  is_Some (RootGo.init env) ↔ override_names_fit RevRootGo env.
Proof.
  unfold override_names_fit. split.
  - intros [[fs g0] H]. unfold RootGo.init, StringVar, BoolVarP_interactive in H.
    destruct_registration H.
    assert (∃ f fs1, AddFlag clientcmd.RecommendedConfigPathFlag f g2 = Some fs1)
      as (f & fs1 & Hk).
    { destruct (homedir_Dir env); destruct_registration H; eauto. }
    clear H. apply override_flags_bound in Hbind as [Hnd Hb].
    split; [done|]. intros n Hn. destruct (Hb n Hn) as [Hfree Hin].
    change ("" +:+ n) with n in *.
    intros [<-|[<-|[<-|[]]]].
    + erewrite AddFlag_keeps in Hfree; [discriminate|eassumption|].
      eauto using AddFlag_lookup.
    + erewrite AddFlag_lookup in Hfree; [discriminate|eassumption].
    + apply AddFlag_free in Hk. destruct Hin as [x Hx].
      unfold clientcmd.RecommendedConfigPathFlag in *. simpl in Hx.
      congruence.
  - intros [Hnd Hres].
    unfold RootGo.init, StringVar, BoolVarP_interactive. simpl.
    rewrite AddFlag_Some by apply lookup_empty. simpl.
    rewrite AddFlag_Some by by rewrite lookup_insert_ne. simpl.
    edestruct (override_flags_bind "") as (fs1 & Hb & Hfree); [exact Hnd| |].
    2: rewrite Hb.
    { intros n Hn. change ("" +:+ n) with n.
      rewrite !lookup_insert_ne, lookup_empty; [done|..];
        intros <-; apply (Hres _ Hn); simpl; auto. }
    simpl.
    assert (fs1 !! clientcmd.RecommendedConfigPathFlag = None) as Hk.
    { apply Hfree; [done|]. intros n Hn Heq. apply (Hres _ Hn).
      change ("" +:+ n) with n in Heq. rewrite <- Heq. simpl. auto. }
    destruct (homedir_Dir env); rewrite AddFlag_Some by done; by eexists.
Qed.

Lemma prefixed_ne p n name :
  (String.length name < String.length p)%nat → name ≠ p +:+ n.
Proof.
  intros Hlen ->. revert Hlen.
  induction p as [|a p IH]; simpl; intros Hlen; [lia|]. apply IH. lia.
Qed.

Lemma Part001_init_fit :
  is_Some (Part001.init env) ↔ override_names_fit RevPart001 env.
Proof.
  unfold override_names_fit. split.
  - intros [[fs g0] H].
    unfold Part001.init, StringVar, AddGoFlag_logLevel in H. simpl in H.
    rewrite AddFlag_Some in H by apply lookup_empty. simpl in H.
    rewrite lookup_insert_ne, lookup_empty in H by done. simpl in H.
    destruct_registration H.
    apply override_flags_bound in Hbind as [Hnd Hb].
    split; [done|]. intros n Hn. destruct (Hb n Hn) as [Hfree Hin].
    intros [<-|[]].
    apply AddFlag_free in Hadd. destruct Hin as [x Hx].
    change ("kubernetes-" +:+ "config") with "kubernetes-config" in Hx.
    congruence.
  - intros [Hnd Hres].
    unfold Part001.init, StringVar, AddGoFlag_logLevel. simpl.
    rewrite AddFlag_Some by apply lookup_empty. simpl.
    rewrite lookup_insert_ne by done. rewrite lookup_empty. simpl.
    edestruct (override_flags_bind "kubernetes-") as (fs1 & Hb & Hfree);
      [exact Hnd| |].
    2: rewrite Hb.
    { intros n Hn. rewrite !lookup_insert_ne, lookup_empty; [done|..];
        apply prefixed_ne; simpl; lia. }
    simpl. rewrite AddFlag_Some; [by eexists|].
    apply Hfree; [done|]. intros n Hn Heq.
    apply (Hres _ Hn). left.
    change "kubernetes-config" with ("kubernetes-" +:+ "config") in Heq.
    by apply (inj (String.append "kubernetes-")) in Heq.
Qed.

Lemma Part000_init_fit :
  is_Some (Part000.init env) ↔ override_names_fit RevPart000 env.
Proof.
  unfold override_names_fit. split.
  - intros [[fs g0] H].
    unfold Part000.init, StringVar, AddGoFlag_logLevel in H. simpl in H.
    rewrite AddFlag_Some in H by apply lookup_empty. simpl in H.
    rewrite lookup_insert_ne, lookup_empty in H by done. simpl in H.
    destruct_registration H.
    apply override_flags_bound in Hbind as [Hnd Hb].
    split; [done|]. intros n Hn. destruct (Hb n Hn) as [Hfree Hin].
    intros [<-|[]].
    apply AddFlag_free in Hadd. destruct Hin as [x Hx].
    change ("kubernetes-" +:+ "config") with "kubernetes-config" in Hx.
    congruence.
  - intros [Hnd Hres].
    unfold Part000.init, StringVar, AddGoFlag_logLevel. simpl.
    rewrite AddFlag_Some by apply lookup_empty. simpl.
    rewrite lookup_insert_ne by done. rewrite lookup_empty. simpl.
    edestruct (override_flags_bind "kubernetes-" ∅) as (fs1 & Hb & Hfree);
      [exact Hnd| |].
    2: rewrite Hb.
    { intros n Hn. apply lookup_empty. }
    simpl. rewrite AddFlag_Some; [by eexists|].
    apply Hfree; [done|]. intros n Hn Heq.
    apply (Hres _ Hn). left.
    change "kubernetes-config" with ("kubernetes-" +:+ "config") in Heq.
    by apply (inj (String.append "kubernetes-")) in Heq.
Qed.

End InitSucceeds.

(** X4.  [init] registers its flags, and the process gets as far as
    [Execute], exactly when the library's table of override flags names
    each field once and none by a name the revision defines itself:
    [config], [interactive] or [kubeconfig] in [RootGo]; [config], which
    behind the prefix is [kubernetes-config], in [Part000] and [Part001].
    Otherwise pflag panics on the flag defined twice. *)
Theorem X4_init_registers_flags (env : Env) r :
  is_Some (init r env) ↔ override_names_fit r env.
Proof.
  destruct r; simpl.
  - apply RootGo_init_fit.
  - apply Part000_init_fit.
  - apply Part001_init_fit.
Qed.

(** ** Which flags the help shows *)

(** Runs the registrations of [init] in a logging revision. *)
Ltac logging_init H :=
  unfold StringVar, AddGoFlag_logLevel in H; simpl in H;
  rewrite AddFlag_Some in H by apply lookup_empty; simpl in H;
  rewrite lookup_insert_ne, lookup_empty in H by done; simpl in H;
  destruct_registration H; injection H as <- <-.

Section Hidden.
Context (env : Env).

Lemma BindOverrideFlags_inv_flag names : ∀ (fs fs' : FlagSet) n x,
  BindOverrideFlags names fs = Some fs' → fs' !! n = Some x →
  (Hidden x = false ∧ is_kubernetes_value (Value_ x) = true)
  ∨ fs !! n = Some x.
Proof.
  induction names as [|[name0 field0] rest IH]; simpl; intros fs fs' n x.
  - intros [= <-]. by right.
  - destruct (AddFlag name0 _ fs) as [fs1|] eqn:E; simpl; [|discriminate].
    intros Hb Hn. destruct (IH _ _ _ _ Hb Hn) as [H|H1]; [by left|].
    destruct (AddFlag_inv _ _ _ _ _ _ E H1) as [[-> ->]|H0]; [by left|].
    by right.
Qed.

Lemma RootGo_init_hidden fs g0 name f :
  RootGo.init env = Some (fs, g0) → fs !! name = Some f → Hidden f = false.
Proof.
  unfold RootGo.init, StringVar, BoolVarP_interactive. intros H Hf.
  destruct_registration H.
  destruct (homedir_Dir env); destruct_registration H; injection H as <- <-.
  all: match goal with Ha : AddFlag clientcmd.RecommendedConfigPathFlag _ _ = _
         |- _ => destruct (AddFlag_inv _ _ _ _ _ _ Ha Hf) as [[-> ->]|H1] end;
    [done|].
  all: destruct (BindOverrideFlags_inv_flag _ _ _ _ _ Hbind H1) as [[H _]|H2];
    [done|].
  all: destruct (AddFlag_inv _ _ _ _ _ _ Hadd0 H2) as [[-> ->]|H3]; [done|].
  all: destruct (AddFlag_inv _ _ _ _ _ _ Hadd H3) as [[-> ->]|H4]; [done|].
  all: by rewrite lookup_empty in H4.
Qed.

Lemma logging_base_flags n x :
  (<["log-level" := {| Value_ := goValue_logLevel; DefValue := "info";
                       Hidden := false |}]>
     (<["config" := {| Value_ := stringValue ref_cfgFile; DefValue := "";
                       Hidden := false |}]> ∅) : FlagSet) !! n = Some x →
  Hidden x = false ∧ is_kubernetes_value (Value_ x) = false.
Proof.
  rewrite !lookup_insert. repeat case_decide; subst.
  - intros [= <-]. auto.
  - intros [= <-]. auto.
  - by rewrite lookup_empty.
Qed.

Lemma Part001_init_hidden fs g0 name f :
  Part001.init env = Some (fs, g0) → fs !! name = Some f → Hidden f = false.
Proof.
  unfold Part001.init. intros H Hf. logging_init H.
  destruct (AddFlag_inv _ _ _ _ _ _ Hadd Hf) as [[-> ->]|H1]; [done|].
  destruct (BindOverrideFlags_inv_flag _ _ _ _ _ Hbind H1) as [[H _]|H2];
    [done|].
  by destruct (logging_base_flags _ _ H2).
Qed.

Lemma Part000_init_hidden fs g0 name f :
  Part000.init env = Some (fs, g0) → fs !! name = Some f →
  Hidden f = is_kubernetes_value (Value_ f).
Proof.
  unfold Part000.init. intros H Hf. logging_init H.
  unfold AddFlagSet, MarkHidden_all in Hf.
  apply lookup_union_Some_raw in Hf as [Hf|[_ Hf]].
  - by destruct (logging_base_flags _ _ Hf) as (-> & ->).
  - rewrite lookup_fmap in Hf.
    destruct (_ !! name) as [y|] eqn:Hy; [|discriminate].
    injection Hf as <-. simpl.
    destruct (AddFlag_inv _ _ _ _ _ _ Hadd Hy) as [[-> ->]|H1]; [done|].
    destruct (BindOverrideFlags_inv_flag _ _ _ _ _ Hbind H1) as [[_ H]|H2];
      [done|].
    by rewrite lookup_empty in H2.
Qed.

End Hidden.

(** X5.  [Part000] hides from the help exactly the flags it collects in
    [kubernetesFlagSet], the kubeconfig path and the override flags, and
    shows [--config] and [--log-level]; [RootGo] and [Part001] hide no
    flag. *)
Theorem X5_hidden_flags (env : Env) r fs g0 name f :
  init r env = Some (fs, g0) → fs !! name = Some f →
  Hidden f = match r with
             | RevPart000 => is_kubernetes_value (Value_ f)
             | RevRootGo | RevPart001 => false
             end.
Proof.
  destruct r; simpl.
  - apply RootGo_init_hidden.
  - apply Part000_init_hidden.
  - apply Part001_init_hidden.
Qed.

Lemma workstation_init r : ∃ fs g0, init r workstation = Some (fs, g0).
Proof.
  assert (match init r workstation with Some _ => True | None => False end)
    as Hok by (destruct r; by vm_compute).
  destruct (init r workstation) as [[fs g0]|]; [by eexists _, _|done].
Qed.

(** X5 in [Part000] on the workstation: [--kubernetes-namespace] is
    hidden. *)
Lemma X5_witness :
  ∃ fs g0 f,
    init RevPart000 workstation = Some (fs, g0)
    ∧ fs !! "kubernetes-namespace" = Some f
    ∧ Hidden f = true.
Proof.
  destruct (workstation_init RevPart000) as (fs & g0 & Hinit).
  destruct (init_spec _ _ _ _ Hinit) as [[_ _ _ Ho _] _].
  destruct (Ho "namespace") as (f & Hf & Hv); [simpl; auto|].
  exists fs, g0, f. split; [exact Hinit|]. split; [exact Hf|].
  rewrite (X5_hidden_flags workstation RevPart000 fs g0 _ f Hinit Hf).
  rewrite Hv. reflexivity.
Defined.

(** ** [Part000] against [Part001] *)

Section LoggingRevisions.
Context (env : Env).

Lemma logging_init_log_level r fs g0 :
  r ≠ RevRootGo → init r env = Some (fs, g0) →
  ∃ f, fs !! "log-level" = Some f ∧ Value_ f = goValue_logLevel.
Proof.
  intros Hr H. destruct r; [done|..]; simpl in H.
  - unfold Part000.init in H. logging_init H.
    eexists. split; [|shelve].
    apply lookup_union_Some_raw. left. apply lookup_insert_eq.
    Unshelve. reflexivity.
  - unfold Part001.init in H. logging_init H.
    eexists. split; [|shelve].
    eapply AddFlag_keeps; [eassumption|].
    eapply BindOverrideFlags_keeps; [eassumption|].
    apply lookup_insert_eq.
    Unshelve. reflexivity.
Qed.








End LoggingRevisions.


(** ** The log level *)

Section LogLevel.
Context (env : Env).

Lemma set_logLevel_same g : set_logLevel (logLevel g) g = g.
Proof. by destruct g. Qed.

Lemma ParseFlags_app (fs : FlagSet) args1 args2 : ∀ g,
  ParseFlags env fs (args1 ++ args2) g
  = match ParseFlags env fs args1 g with
    | (g1, None) => ParseFlags env fs args2 g1
    | (g1, Some err) => (g1, Some err)
    end.
Proof.
  induction args1 as [|[n s] rest IH]; intros g; simpl; [done|].
  destruct (fs !! n) as [f|]; [|done].
  destruct (Set_ env (Value_ f) s g); [apply IH|done].
Qed.

(** The level a parse starts from shows in the level it ends with, and
    nowhere else. *)
Lemma ParseFlags_logLevel (fs : FlagSet) args l : ∀ g,
  ∃ l', ParseFlags env fs args (set_logLevel l g)
        = (set_logLevel l' (ParseFlags env fs args g).1,
           (ParseFlags env fs args g).2).
Proof.
  induction args as [|[n s] rest IH]; intros g; simpl; [by eexists|].
  destruct (fs !! n) as [f|]; [|by eexists].
  destruct (Value_ f) as [p| |]; simpl.
  - destruct (IH (store p s g)) as [l' Hl']. exists l'.
    rewrite <- Hl'. by destruct p.
  - destruct (ParseBool s) as [b|]; [|by eexists].
    destruct (IH (set_interactive b g)) as [l' Hl']. exists l'.
    by rewrite <- Hl'.
  - destruct (zapcore_Level_Set env s) as [l1|err]; [|by eexists].
    exists (logLevel (ParseFlags env fs rest (set_logLevel l1 g)).1).
    change (set_logLevel l1 (set_logLevel l g)) with (set_logLevel l1 g).
    rewrite set_logLevel_same.
    by destruct (ParseFlags env fs rest (set_logLevel l1 g)).
Qed.

Lemma without_logs_app t1 t2 :
  without_logs (t1 ++ t2) = without_logs t1 ++ without_logs t2.
Proof. apply List.filter_app. Qed.

Lemma without_logs_entry min lvl msg fields :
  without_logs (entry min lvl msg fields) = [].
Proof. unfold entry. by destruct (zapcore.Enabled min lvl). Qed.

Lemma hooks_logLevel r g l :
  r ≠ RevRootGo → logger g = None →
  outcome_of (hooks r env (set_logLevel l g)) = outcome_of (hooks r env g)
  ∧ without_logs (trace_of (hooks r env (set_logLevel l g)))
    = without_logs (trace_of (hooks r env g)).
Proof.
  intros Hr Hl. rewrite !hooks_run.
  destruct r; [done|..]; cbn [initConfig PersistentPreRun].
  all: rewrite ?Part001_initConfig_run, ?RootGo_initConfig_run,
         ?Part000_initConfig_run; cbv zeta.
  all: change (resolver_settings env (set_logLevel l g))
         with (resolver_settings env g).
  all: change (logger (set_logLevel l g)) with (logger g); rewrite ?Hl.
  all: change (Part001.PersistentPreRun env)
         with (Part000.PersistentPreRun env).
  all: destruct (viper_ReadInConfig env (resolver_settings env g));
         try done.
  all: rewrite !Part000_PersistentPreRun_run; cbv zeta.
  all: change (kubeConfig_of RevPart000 env (set_viperState _ (set_logLevel l g)))
         with (kubeConfig_of RevPart000 env g).
  all: change (kubeConfig_of RevPart000 env (set_viperState _ g))
         with (kubeConfig_of RevPart000 env g).
  all: change (kubeConfigFile (set_viperState _ (set_logLevel l g)))
         with (kubeConfigFile g).
  all: change (kubeConfigFile (set_viperState _ g)) with (kubeConfigFile g).
  all: destruct (clientcmd_ClientConfig env _);
         [destruct (kubernetes_NewForConfig env _);
          [destruct (Pods_List env _ _).2|]|].
  all: unfold outcome_of, trace_of; cbn [fst snd]; split; [done|].
  all: destruct (nonempty (kubeConfigFile g)).
  all: repeat first [ rewrite without_logs_app
                    | rewrite without_logs_entry ].
  all: reflexivity.
Qed.

End LogLevel.

(** X7.  In the logging revisions [--log-level] decides what is logged and
    nothing else: with a level zap accepts put anywhere on the command
    line, the run ends the same way, and its trace without the log
    entries is the same. *)
Theorem X7_log_level_changes_logs_only (env : Env) r args1 args2 s l :
  r ≠ RevRootGo →
  zapcore_Level_Set env s = inl l →
  outcome_of (main r env (args1 ++ ("log-level", s) :: args2))
  = outcome_of (main r env (args1 ++ args2))
  ∧ without_logs (trace_of (main r env (args1 ++ ("log-level", s) :: args2)))
    = without_logs (trace_of (main r env (args1 ++ args2))).
Proof.
  intros Hr Hs. rewrite !main_run.
  destruct (init r env) as [[fs g0]|] eqn:Hinit; [|done].
  destruct (init_spec env r fs g0 Hinit) as [_ [_ Hrt]].
  destruct (logging_init_log_level env r fs g0 Hr Hinit) as (f & Hf & Hv).
  rewrite !ParseFlags_app.
  pose proof (ParseFlags_runtime_state env fs args1 g0) as Hkeep1.
  destruct (ParseFlags env fs args1 g0) as [g1 [err|]]; [done|].
  cbn [ParseFlags]. rewrite Hf, Hv. cbn [Set_]. rewrite Hs.
  destruct (ParseFlags_logLevel env fs args2 l g1) as [l' ->].
  pose proof (ParseFlags_runtime_state env fs args2 g1) as Hkeep2.
  destruct (ParseFlags env fs args2 g1) as [g [err|]]; cbn [fst snd] in *.
  - unfold refused. change (logger (set_logLevel l' g)) with (logger g).
    destruct r; [done|..]; by destruct (logger g).
  - apply hooks_logLevel; [done|].
    rewrite Hkeep1, Hrt in Hkeep2. by injection Hkeep2.
Qed.

(** X7 in [Part001] on the workstation with [--log-level debug]. *)
Lemma X7_witness :
  outcome_of (main RevPart001 workstation [("log-level", "debug")])
  = outcome_of (main RevPart001 workstation [])
  ∧ without_logs
      (trace_of (main RevPart001 workstation [("log-level", "debug")]))
    = without_logs (trace_of (main RevPart001 workstation [])).
Proof.
  apply (X7_log_level_changes_logs_only workstation RevPart001 [] []
           "debug" zapcore.DebugLevel); [discriminate|reflexivity].
Defined.

Section Levels.
Context (env : Env).

Lemma In_entry_enabled e min lvl msg fields :
  In e (entry min lvl msg fields) →
  e = LogEntry lvl msg fields ∧ zapcore.Enabled min lvl = true.
Proof.
  unfold entry. destruct (zapcore.Enabled min lvl); [|done].
  by intros [<-|[]].
Qed.

Lemma given_None name n s rest :
  given name ((n, s) :: rest) = None → n ≠ name ∧ given name rest = None.
Proof.
  simpl. destruct (given name rest); [done|].
  destruct (String.eqb_spec n name); [done|]. by split.
Qed.

Lemma ParseFlags_logLevel_absent (fs : FlagSet) :
  (∀ n x, fs !! n = Some x → Value_ x = goValue_logLevel → n = "log-level") →
  ∀ args g g',
    ParseFlags env fs args g = (g', None) →
    given "log-level" args = None → logLevel g' = logLevel g.
Proof.
  intros Hname. induction args as [|[n s] rest IH]; intros g g'.
  { by intros [= <-]. }
  intros Hp [Hn Hrest]%given_None. simpl in Hp.
  destruct (fs !! n) as [f|] eqn:Hf; [|discriminate].
  destruct (Set_ env (Value_ f) s g) as [g1|] eqn:E; [|discriminate].
  rewrite (IH g1 g' Hp Hrest).
  destruct (Value_ f) as [p| |] eqn:Hv; simpl in E.
  - injection E as <-. by destruct p.
  - destruct (ParseBool s); [|discriminate]. by injection E as <-.
  - destruct Hn. by eapply Hname.
Qed.

Lemma parsed_logLevel r fs args g0 g :
  flags_ok r env fs → globals_fresh r env g0 →
  ParseFlags env fs args g0 = (g, None) →
  given "log-level" args = None → logLevel g = zapcore.InfoLevel.
Proof.
  intros [Hb _ _ _ _] [Hfl _] Hp Hgiven.
  rewrite (ParseFlags_logLevel_absent fs) with (args := args) (g := g0);
    [|..|exact Hp|exact Hgiven].
  - unfold flag_state in Hfl. by injection Hfl.
  - intros n x Hx Hv. apply Hb in Hx. unfold bound_at in Hx.
    rewrite Hv in Hx. by destruct Hx.
Qed.

End Levels.

(** Takes a trace apart, keeping for each entry that its level passed. *)
Ltac in_trace_levels :=
  repeat
    match goal with
    | H : In _ (_ ++ _) |- _ => apply in_app_or in H; destruct H as [H|H]
    | H : In _ (entry _ _ _ _) |- _ =>
        let He := fresh "Henabled" in
        apply In_entry_enabled in H; destruct H as [H He]
    | H : In _ (if ?b then _ else _) |- _ => destruct b
    | H : In _ (_ :: _) |- _ => destruct H as [H|H]
    | H : In _ [] |- _ => destruct H
    end.

(** X8.  Only the logging revisions write log entries, and every entry of
    a run passed the level the command line left in [logLevel]: the
    logger is built at that level before anything is logged.  Without
    [--log-level] that is zap's info level, so no debug entry is
    written. *)
Theorem X8_entries_pass_the_level (env : Env) r args lvl msg fields :
  In (LogEntry lvl msg fields) (trace_of (main r env args)) →
  r ≠ RevRootGo
  ∧ zapcore.Enabled (logLevel (globals_of (main r env args))) lvl = true
  ∧ (given "log-level" args = None → lvl ≠ zapcore.DebugLevel).
Proof.
  intros H.
  assert (∀ fs g0 g, init r env = Some (fs, g0) → flags_ok r env fs →
            globals_fresh r env g0 → ParseFlags env fs args g0 = (g, None) →
            given "log-level" args = None →
            logLevel g = zapcore.InfoLevel) as Hdefault.
  { intros. by eapply parsed_logLevel. }
  run_cases r env args.
  all: in_trace_levels; try discriminate.
  all: simplify_eq.
  all: split; [done|]; cbn [logLevel set_kubeClient set_logger set_viperState].
  all: split; [by rewrite ?Enabled_FatalLevel|].
  all: try done.
  all: intros Hg; erewrite Hdefault in Henabled by eassumption; done.
Qed.

(** X8 in [Part001] on the workstation with [--log-level debug]. *)
Lemma X8_witness :
  zapcore.Enabled
    (logLevel (globals_of (main RevPart001 workstation
                             [("log-level", "debug")])))
    zapcore.DebugLevel = true.
Proof.
  apply (X8_entries_pass_the_level workstation RevPart001
           [("log-level", "debug")] zapcore.DebugLevel
           "running against namespace" [("namespace", VString "default")]).
  vm_compute. auto 10.
Defined.

(** ** How a run ends *)


(** Refutes that a trace written out reports an error. *)
Ltac not_reported :=
  let e := fresh "e" in
  let Hin := fresh "Hin" in
  let Hrep := fresh "Hrep" in
  intros (e & Hin & Hrep); in_trace; subst; simpl in Hrep;
  repeat match goal with
         | H : ∃ _, _ |- _ => destruct H
         | H : _ ∨ _ |- _ => destruct H
         | H : False |- _ => destruct H
         end;
  discriminate.

(** X10.  A client that cannot be built ends the run in the panic of
    [kubernetes.NewForConfigOrDie], unlike a failed credential
    resolution: the process panics with the error of [NewForConfig],
    status 2; the code prints and logs no error; the namespace is not
    resolved, no list request is sent, the action does not run. *)
Theorem X10_client_construction_failure (env : Env) r args cfg err :
  In (BuildClient cfg (inr err)) (trace_of (main r env args)) →
  outcome_of (main r env args) = Panic err
  ∧ status (main r env args) = 2
  ∧ kubernetes_NewForConfig env cfg = inr err
  ∧ (∃ c, In (LoadClientConfig c (inl cfg)) (trace_of (main r env args)))
  ∧ (∀ e, ¬ reported e (trace_of (main r env args)))
  ∧ (∀ c a, ¬ In (ResolveNamespace c a) (trace_of (main r env args)))
  ∧ (∀ client ns a,
       ¬ In (ListPods client ns a) (trace_of (main r env args)))
  ∧ ¬ In RunAction (trace_of (main r env args)).
Proof.
  intros H. run_cases r env args.
  all: in_trace; try discriminate; simplify_eq.
  all: split; [done|]. all: split; [done|]. all: split; [done|].
  all: split; [eexists; trace_has|].
  all: split; [intros e; not_reported|].
  all: split; [intros c a Hin; in_trace; discriminate|].
  all: split; [intros c ns a Hin; in_trace; discriminate|].
  all: intros Hin; in_trace; discriminate.
Qed.

(** X10 in [Part001] with a configuration no client can be built from. *)
Lemma X10_witness :
  outcome_of (main RevPart001 unusable_configuration []) = Panic invalid_host
  ∧ status (main RevPart001 unusable_configuration []) = 2.
Proof.
  assert (In (BuildClient sample_restConfig (inr invalid_host))
             (trace_of (main RevPart001 unusable_configuration []))) as H.
  { vm_compute. auto. }
  destruct (X10_client_construction_failure unusable_configuration
              RevPart001 [] _ _ H) as (Ho & Hs & _).
  split; [exact Ho|exact Hs].
Defined.

(** ** The probe *)

(** X11.  The list request of a run is sent by the client built from the
    connection configuration the loader resolved, for the namespace the
    same loader answered, and its answer is the API server's. *)
Theorem X11_list_request_origin (env : Env) r args client ns a :
  In (ListPods client ns a) (trace_of (main r env args)) →
  ∃ c cfg,
    In (LoadClientConfig c (inl cfg)) (trace_of (main r env args))
    ∧ clientcmd_ClientConfig env c = inl cfg
    ∧ In (BuildClient cfg (inl client)) (trace_of (main r env args))
    ∧ kubernetes_NewForConfig env cfg = inl client
    ∧ In (ResolveNamespace c (clientcmd_Namespace env c))
         (trace_of (main r env args))
    ∧ ns = (clientcmd_Namespace env c).1.1
    ∧ a = Pods_List env client ns.
Proof.
  intros H. run_cases r env args.
  all: in_trace; try discriminate; simplify_eq.
  all: eexists _, _.
  all: split; [trace_has|]. all: split; [eassumption|].
  all: split; [trace_has|]. all: split; [eassumption|].
  all: split; [trace_has|]. all: by split.
Qed.

(** X11 on the workstation in [RootGo]. *)
Lemma X11_witness :
  ∃ c cfg,
    In (LoadClientConfig c (inl cfg)) (trace_of (main RevRootGo workstation []))
    ∧ In (BuildClient cfg (inl sample_client))
         (trace_of (main RevRootGo workstation []))
    ∧ "default" = (clientcmd_Namespace workstation c).1.1.
Proof.
  assert (In (ListPods sample_client "default" (["pod-a"; "pod-b"], None))
             (trace_of (main RevRootGo workstation []))) as H.
  { vm_compute. auto 10. }
  destruct (X11_list_request_origin workstation RevRootGo [] _ _ _ H)
    as (c & cfg & Hl & _ & Hb & _ & _ & Hn & _).
  exists c, cfg. split; [exact Hl|]. split; [exact Hb|exact Hn].
Defined.

(** X12.  A list request that succeeds is the end of the pre-run hook:
    [RootGo] prints the Pods with a nil error, the logging revisions log
    them at info level, when the level lets info through; the action then
    runs and the process ends with status 0. *)
Theorem X12_pods_shown (env : Env) r args client ns pods :
  In (ListPods client ns (pods, None)) (trace_of (main r env args)) →
  outcome_of (main r env args) = Return tt
  ∧ In RunAction (trace_of (main r env args))
  ∧ match r with
    | RevRootGo =>
        In (Println [VPods pods; VError None]) (trace_of (main r env args))
    | RevPart000 | RevPart001 =>
        zapcore.Enabled (logLevel (globals_of (main r env args)))
          zapcore.InfoLevel = true →
        In (LogEntry zapcore.InfoLevel "returned pods" [("pods", VPods pods)])
           (trace_of (main r env args))
    end.
Proof.
  intros H. run_cases r env args.
  all: in_trace; try discriminate; simplify_eq.
  all: split; [done|]. all: split; [trace_has|].
  all: cbn [logLevel set_kubeClient set_logger set_viperState].
  all: try (intros Henabled; unfold entry; rewrite Henabled).
  all: rewrite ?Hlist; trace_has.
Qed.

(** X12 on the workstation in [Part000]. *)
Lemma X12_witness :
  In (LogEntry zapcore.InfoLevel "returned pods"
        [("pods", VPods ["pod-a"; "pod-b"])])
     (trace_of (main RevPart000 workstation [])).
Proof.
  assert (In (ListPods sample_client "default" (["pod-a"; "pod-b"], None))
             (trace_of (main RevPart000 workstation []))) as H.
  { vm_compute. auto 10. }
  destruct (X12_pods_shown workstation RevPart000 [] _ _ _ H)
    as (_ & _ & Hshown).
  apply Hshown. reflexivity.
Defined.

(** X13.  When the action of the command runs, the package variables hold
    what the template promises it: [kubeClient] is the client the run
    built, and in the logging revisions [logger] is a logger at the level
    of [logLevel]. *)
Theorem X13_state_for_the_action (env : Env) r args :
  In RunAction (trace_of (main r env args)) →
  ∃ cfg client,
    In (BuildClient cfg (inl client)) (trace_of (main r env args))
    ∧ kubeClient (globals_of (main r env args)) = Some client
    ∧ (r ≠ RevRootGo →
       logger (globals_of (main r env args))
       = Some (zap_Build (logLevel (globals_of (main r env args))))).
Proof.
  intros H. run_cases r env args.
  all: in_trace; try discriminate.
  all: eexists _, _.
  all: split; [trace_has|]. all: split; [reflexivity|].
  all: intros Hr; done.
Qed.

(** X13 on the workstation in [Part001]. *)
Lemma X13_witness :
  ∃ client,
    kubeClient (globals_of (main RevPart001 workstation [])) = Some client
    ∧ logger (globals_of (main RevPart001 workstation []))
      = Some (zap_Build
                (logLevel (globals_of (main RevPart001 workstation [])))).
Proof.
  assert (In RunAction (trace_of (main RevPart001 workstation []))) as H.
  { vm_compute. auto 10. }
  destruct (X13_state_for_the_action workstation RevPart001 [] H)
    as (cfg & client & _ & Hk & Hl).
  exists client. split; [exact Hk|]. apply Hl. discriminate.
Defined.

(** ** What the flags tell the libraries *)

(** X14.  The Config Resolver asks viper once its settings are made, with
    environment variables enabled: for the file of a non-empty [--config]
    alone, and otherwise, without the flag or with an empty path, for
    [.kube-client-template] in the home directory, when there is one, and
    in the working directory. *)
Theorem X14_resolver_settings (env : Env) r args v a :
  In (ReadInConfig v a) (trace_of (main r env args)) →
  viper.automaticEnvApplied v = true
  ∧ a = viper_ReadInConfig env v
  ∧ match given "config" args with
    | Some p =>
        if nonempty p
        then viper.configFile v = p ∧ viper.configPaths v = []
        else default_discovery env v
    | None => default_discovery env v
    end.
Proof.
  intros (fs & g0 & g & Hinit & Hfs & [Hfl Hrt] & Hparse & -> & ->)%read_event.
  pose proof (parsed_cfgFile env r fs args g0 g Hfs Hparse) as Hcfg.
  pose proof (ParseFlags_runtime_state env fs args g0) as Hkeep.
  rewrite Hparse, Hrt in Hkeep. injection Hkeep as _ _ Hviper.
  assert (cfgFile g0 = "") as H0.
  { unfold flag_state in Hfl. by injection Hfl. }
  rewrite H0 in Hcfg. split; [done|]. split; [done|].
  unfold resolver_settings, default_discovery. rewrite Hviper, Hcfg.
  destruct (given "config" args) as [p|]; simpl.
  - destruct (nonempty p); simpl; [done|].
    by destruct (homedir_Dir env).
  - by destruct (homedir_Dir env).
Qed.

(** X14 on the workstation in [Part001], without [--config]. *)
Lemma X14_witness :
  default_discovery workstation
    (resolver_settings workstation zero_Globals).
Proof.
  assert (In (ReadInConfig (resolver_settings workstation zero_Globals)
                (inr "config file not found"))
             (trace_of (main RevPart001 workstation []))) as H.
  { vm_compute. auto. }
  destruct (X14_resolver_settings workstation RevPart001 [] _ _ H)
    as (_ & _ & Hd).
  exact Hd.
Defined.

(** X15.  A kubeconfig path given on the command line, [--kubeconfig] in
    [RootGo] and [--kubernetes-config] in the logging revisions, becomes
    the explicit path of the loading rules when it is not empty, and the
    logging revisions say so at info level; an empty path leaves the
    library's default rules, in [RootGo] too, where the flag's own
    default would have been the home-directory file. *)
Theorem X15_explicit_kubeconfig (env : Env) r args p c a :
  given (kubeconfig_flag r) args = Some p →
  In (LoadClientConfig c a) (trace_of (main r env args)) →
  clientcmd.loader c
  = (if nonempty p
     then clientcmd.set_ExplicitPath p (NewDefaultClientConfigLoadingRules env)
     else NewDefaultClientConfigLoadingRules env)
  ∧ (r ≠ RevRootGo → nonempty p = true →
     zapcore.Enabled (logLevel (globals_of (main r env args)))
       zapcore.InfoLevel = true →
     In (LogEntry zapcore.InfoLevel "using specified kube config file"
           [("file", VString p)])
        (trace_of (main r env args))).
Proof.
  intros Hgiven H.
  assert (∀ fs g0 g, flags_ok r env fs →
            ParseFlags env fs args g0 = (g, None) → kubeConfigFile g = p)
    as Hpath.
  { intros fs g0 g Hfs Hparse.
    rewrite (parsed_kubeConfigFile env r fs args g0 g Hfs Hparse), Hgiven.
    done. }
  run_cases r env args.
  all: try (specialize (Hpath _ _ _ Hflags Hparse)).
  all: in_trace; try discriminate; simplify_eq.
  all: split; [reflexivity|].
  all: try (intros Hr; done).
  all: intros _ Hne Henabled; rewrite Hne; unfold entry.
  all: cbn [logLevel set_kubeClient set_logger set_viperState] in Henabled.
  all: rewrite Henabled; trace_has.
Qed.

(** X15 in [RootGo] on the workstation with an empty [--kubeconfig]. *)
Lemma X15_witness :
  In (LoadClientConfig
        {| clientcmd.loader := NewDefaultClientConfigLoadingRules workstation;
           clientcmd.overrides := ∅;
           clientcmd.fallbackReader := None |}
        (inl sample_restConfig))
     (trace_of (main RevRootGo workstation [("kubeconfig", "")]))
  ∧ clientcmd.loader
      {| clientcmd.loader := NewDefaultClientConfigLoadingRules workstation;
         clientcmd.overrides := ∅;
         clientcmd.fallbackReader := None |}
    = NewDefaultClientConfigLoadingRules workstation.
Proof.
  assert (In (LoadClientConfig
                {| clientcmd.loader :=
                     NewDefaultClientConfigLoadingRules workstation;
                   clientcmd.overrides := ∅;
                   clientcmd.fallbackReader := None |}
                (inl sample_restConfig))
             (trace_of (main RevRootGo workstation [("kubeconfig", "")])))
    as H.
  { vm_compute. auto. }
  split; [exact H|].
  exact (proj1 (X15_explicit_kubeconfig workstation RevRootGo
                  [("kubeconfig", "")] "" _ _ eq_refl H)).
Defined.

(** ** Exit statuses *)


Lemma last_reports (t : list Event) e err :
  reports err e → ∃ t' e' err', t ++ [e] = t' ++ [e'] ∧ reports err' e'.
Proof. intros H. by exists t, e, err. Qed.

Lemma last_but_one_reports (t : list Event) x e err :
  reports err e → ∃ t' e' err', t ++ [x; e] = t' ++ [e'] ∧ reports err' e'.
Proof.
  intros H. exists (t ++ [x]), e, err. split; [|done]. by rewrite <- app_assoc.
Qed.

(** X17.  The exit statuses are 0, 1 and 2.  A run that exits with
    status 1 ends on the line or the log entry that reports an error; a
    run that panics, status 2, has printed and logged no error. *)
Theorem X17_exit_statuses (env : Env) r args :
  (status (main r env args) = 0 ∨ status (main r env args) = 1
   ∨ status (main r env args) = 2)
  ∧ (status (main r env args) = 1 →
     ∃ t e err, trace_of (main r env args) = t ++ [e] ∧ reports err e)
  ∧ (status (main r env args) = 2 →
     ∀ err, ¬ reported err (trace_of (main r env args))).
Proof.
  run_cases r env args.
  all: split; [auto|].
  all: split; [try done|try done].
  all: try (intros _ e; not_reported).
  all: intros _.
  all: rewrite ?app_assoc.
  all: first [ eapply (last_reports []); simpl; by eauto
             | eapply last_but_one_reports; simpl; by eauto
             | eapply last_reports; simpl; by eauto ].
Qed.
